(** * trainer.py: a shallow embedding of the VoxSRC-20 training script

    The script is a straight-line program over a deep-learning framework.
    It is embedded as a computation in a state-and-exception monad:
    - the parsed [argparse] namespace is one shared store (a finite map from
      field names to values); [kwargs = vars(args)] is an alias of that same
      store, so every read of [kwargs] is a read of the store;
    - the module-level variables [counter] and [loss] are state components
      ([loss] is unbound until the first assignment);
    - every call into the framework or into the imported modules
      ([data_loader], [model], [loss], [torch]) is recorded, in program
      order, in a trace of events; the values those calls return are supplied
      by an environment record;
    - the exceptions the script itself can raise (the two [ValueError]s, an
      unbound name, a missing namespace attribute, a non-integer epoch count,
      a division by zero) are the error results. *)

From Stdlib Require Import ZArith QArith String DecimalString.
From Stdlib Require Import DecimalNat.
From stdpp Require Import base gmap strings list.

Open Scope string_scope.
Open Scope list_scope.

(** ** Python values held by the namespace *)

Inductive value :=
| VNone
| VBool (b : bool)
| VInt (z : Z)
| VFloat (q : Q)
| VStr (s : string).

(** [v == 'literal'] for a string literal. *)
Definition str_eq (v : value) (lit : string) : bool :=
  match v with
  | VStr s => String.eqb s lit
  | _ => false
  end.

(** Truth value of an object in an [if] test. *)
Definition truthy (v : value) : bool :=
  match v with
  | VNone => false
  | VBool b => b
  | VInt z => negb (Z.eqb z 0)
  | VFloat q => negb (Qeq_bool q 0)
  | VStr s => negb (String.eqb s "")
  end.

(** ** Exceptions raised by the script *)

Inductive exn :=
| ValueError (msg : string)
| AttributeError (field : string)
| NameError (name : string)
| TypeError (msg : string)
| ZeroDivisionError.

(** ** Framework objects and the event trace *)

Inductive device := Cuda | Cpu.
Inductive component := Model | Criterion | Optimizer.
Inductive dataset_kind := ClassificationVCDS | MetricLearningVCDS.
Inductive criterion_kind := CosFace | PSGE2E | Prototypical.
Inductive batch_tensor := TX | TTarget.

Record dataset := Dataset { ds_kind : dataset_kind; ds_args : list value }.

(** Real-valued tensors are two-dimensional (rows indexed by the batch
    dimension); integer label tensors are one-dimensional. *)
Definition tensor := list (list Q).

(** Modelled from the spec: the [data_loader] module is not part of the
    sources.  A dataset sample is a pair of a raw audio/feature tensor and an
    integer speaker label, so the batch the [DataLoader] collates carries a
    tensor [x] with one row per sample and a one-dimensional integer tensor
    [target] of shape (B,). *)
Record batch := Batch { batch_x : tensor; batch_target : list Z }.

Inductive event :=
| EDataset (ds : dataset)
| EDataLoader (ds : dataset) (batch_size : value) (shuffle : bool) (num_workers : value)
| ETransform (kwargs : gmap string value) (dev : device)
| EModelCtor (kwargs : gmap string value) (dev : device)
| ELoadStateDict (c : component) (path : value) (dev : device)
| ESummaryWriter (logdir : value)
| ECriterionCtor (k : criterion_kind) (ctor_args : list value) (dev : device)
| EAdam (lr criterion_lr : value)
| EPrint (line : string)
| EToDevice (t : batch_tensor)
| EFeatureExtract
| EForward
| ECriterionCall
| EAddScalar (tag : string) (v : Q) (step : nat)
| EZeroGrad
| EBackward
| EOptimizerStep
| ESave (c : component) (file : string).

(** What the imported modules and the framework return.  The forward pass
    and the criterion depend on the parameters, which change with every
    optimizer step, so both are indexed by the number of steps taken. *)
Record env := Env {
  cuda_is_available : bool;
  ds_len : dataset → nat;
  dl_iter : dataset → value → nat → list batch;
  feature_extractor : tensor → tensor;
  model_fwd : nat → tensor → tensor;
  criterion_fwd : nat → tensor → list Z → tensor * Q
}.

(** ** Interpreter state *)

Record pystate := PyState {
  args : gmap string value;
  counter : nat;
  loss : option Q;
  trace : list event
}.

Definition init (cfg : gmap string value) : pystate :=
  {| args := cfg; counter := 0; loss := None; trace := [] |}.

(** ** The monad *)

Definition M (A : Type) : Type := pystate → (exn + A) * pystate.

#[local] Instance M_ret : MRet M := λ A a s, (inr a, s).
#[local] Instance M_bind : MBind M := λ A B f m s,
  match m s with
  | (inr a, s') => f a s'
  | (inl e, s') => (inl e, s')
  end.

Definition raise {A} (e : exn) : M A := λ s, (inl e, s).

Definition emit (ev : event) : M unit := λ s,
  (inr tt, {| args := args s; counter := counter s; loss := loss s;
              trace := trace s ++ [ev] |}).

(** [args.field] *)
Definition getattr (field : string) : M value := λ s,
  match args s !! field with
  | Some v => (inr v, s)
  | None => (inl (AttributeError field), s)
  end.

(** [args.field = v] *)
Definition setattr (field : string) (v : value) : M unit := λ s,
  (inr tt, {| args := <[field := v]> (args s); counter := counter s;
              loss := loss s; trace := trace s |}).

(** [**kwargs]: the current contents of the shared namespace. *)
Definition read_kwargs : M (gmap string value) := λ s, (inr (args s), s).

Definition get_counter : M nat := λ s, (inr (counter s), s).

Definition set_counter (n : nat) : M unit := λ s,
  (inr tt, {| args := args s; counter := n; loss := loss s; trace := trace s |}).

Definition assign_loss (l : Q) : M unit := λ s,
  (inr tt, {| args := args s; counter := counter s; loss := Some l;
              trace := trace s |}).

(** Evaluating the name [loss]. *)
Definition read_loss : M Q := λ s,
  match loss s with
  | Some l => (inr l, s)
  | None => (inl (NameError "loss"), s)
  end.

Fixpoint forM_ {A} (l : list A) (f : A → M unit) : M unit :=
  match l with
  | [] => mret tt
  | a :: l' => f a ;; forM_ l' f
  end.

(** ** Tensor operations used by the accuracy computation *)

Fixpoint argmax_from (best : Q) (best_i i : Z) (row : list Q) : Z :=
  match row with
  | [] => best_i
  | q :: r =>
      if Qle_bool q best then argmax_from best best_i (i + 1) r
      else argmax_from q i (i + 1) r
  end.

Definition argmax (row : list Q) : Z :=
  match row with
  | [] => 0
  | q :: r => argmax_from q 0 1 r
  end.

(** [scores.topk(1, dim=1)[1]]: the index of the largest entry of every row,
    as a tensor of shape (B, 1). *)
Definition topk1_indices (scores : tensor) : list (list Z) :=
  map (λ row, [argmax row]) scores.

(** [preds == target] with [preds] of shape (B, 1) and [target] of shape
    (T,): the operands are broadcast to shape (B, T), entry (i, j) comparing
    [preds[i][0]] with [target[j]]. *)
Definition eq_broadcast (preds : list (list Z)) (target : list Z) : list (list bool) :=
  map (λ row,
         match row with
         | [p] => map (Z.eqb p) target
         | _ => zip_with Z.eqb row target
         end) preds.

(** [.sum().item()] of a boolean tensor. *)
Definition sum_item (m : list (list bool)) : nat :=
  length (filter (λ b, b = true) (concat m)).

(** [y.size(0)] *)
Definition size0 (y : tensor) : nat := length y.

(** [int / int]: true division. *)
Definition true_div (a b : nat) : M Q :=
  match b with
  | O => raise ZeroDivisionError
  | S _ => mret (Z.of_nat a # Pos.of_nat b)
  end.

(** ** String formatting *)

Definition str_of_nat (n : nat) : string := NilZero.string_of_uint (Nat.to_uint n).

(** [f'{n:02d}'] *)
Definition fmt_02d (n : nat) : string :=
  let s := str_of_nat n in
  if Nat.ltb (String.length s) 2 then ("0" ++ s)%string else s.

Definition dashes20 : string := "--------------------".

Definition epoch_banner (e : nat) : string :=
  (dashes20 ++ "epoch: " ++ fmt_02d (e + 1) ++ dashes20)%string.

Definition checkpoint_file (stem : string) (e : nat) : string :=
  ("models/" ++ stem ++ "_" ++ fmt_02d (e + 1) ++ ".pt")%string.

(** [range(v)] *)
Definition py_range (v : value) : M (list nat) :=
  match v with
  | VInt z => mret (seq 0 (Z.to_nat z))
  | VBool b => mret (seq 0 (if b then 1 else 0))
  | _ => raise (TypeError "object cannot be interpreted as an integer")
  end.

(** ** The script *)

(** The [DataLoader] object: the dataset it wraps and its batch size. *)
Record loader := Loader { dl_ds : dataset; dl_batch_size : value }.

Section Trainer.
Context (E : env).

(** Lines 23-26. *)
Definition select_device : device :=
  if cuda_is_available E then Cuda else Cpu.

(** Lines 29-46: the dataset variant is chosen by [criterion_type]; the
    classification branch stores [len(ds)] in the namespace. *)
Definition make_dataset : M dataset :=
  ct ← getattr "criterion_type";
  if str_eq ct "classification" then
    csv ← getattr "csv_path";
    wl ← getattr "win_length";
    hl ← getattr "hop_length";
    nf ← getattr "num_frames";
    let ds := Dataset ClassificationVCDS [csv; wl; hl; nf] in
    emit (EDataset ds);;
    setattr "num_spkr" (VInt (Z.of_nat (ds_len E ds)));;
    mret ds
  else
    ct' ← getattr "criterion_type";
    if str_eq ct' "metriclearning" then
      csv ← getattr "csv_path";
      wl ← getattr "win_length";
      hl ← getattr "hop_length";
      nf ← getattr "num_frames";
      sp ← getattr "spk_samples";
      let ds := Dataset MetricLearningVCDS [csv; wl; hl; nf; sp] in
      emit (EDataset ds);;
      mret ds
    else raise (ValueError "args.criterion-type: no valid criterion type").

(** Lines 47-52. *)
Definition make_loader (ds : dataset) : M loader :=
  bs ← getattr "batch_size";
  nw ← getattr "num_workers";
  emit (EDataLoader ds bs true nw);;
  mret (Loader ds bs).

(** Lines 53-57: both constructors receive the namespace as keywords. *)
Definition make_modules (dev : device) : M unit :=
  kw ← read_kwargs;
  emit (ETransform kw dev);;
  kw' ← read_kwargs;
  emit (EModelCtor kw' dev).

(** Lines 60-66. *)
Definition resume_checkpoint (dev : device) : M unit :=
  mp ← getattr "model_path";
  if truthy mp then
    p ← getattr "model_path";
    emit (ELoadStateDict Model p dev)
  else mret tt.

(** Line 69. *)
Definition make_log : M unit :=
  ld ← getattr "logdir";
  emit (ESummaryWriter ld).

(** Lines 72-80. *)
Definition make_criterion (dev : device) : M unit :=
  c ← getattr "criterion";
  if str_eq c "cosface" then
    rd ← getattr "repr_dim";
    ns ← getattr "num_spkr";
    m ← getattr "m";
    sc ← getattr "s";
    emit (ECriterionCtor CosFace [rd; ns; m; sc] dev)
  else
    c' ← getattr "criterion";
    if str_eq c' "psge2e" then
      rd ← getattr "repr_dim";
      ns ← getattr "num_spkr";
      m ← getattr "init_m";
      sc ← getattr "init_s";
      emit (ECriterionCtor PSGE2E [rd; ns; m; sc] dev)
    else
      c'' ← getattr "criterion";
      if str_eq c'' "prototypical" then
        rd ← getattr "repr_dim";
        ns ← getattr "num_spkr";
        emit (ECriterionCtor Prototypical [rd; ns] dev)
      else raise (ValueError "args.criterion: no valid criterion function").

(** Lines 83-88. *)
Definition make_optimizer : M unit :=
  lr ← getattr "lr";
  clr ← getattr "criterion_lr";
  emit (EAdam lr clr).

(** Lines 17-88: everything that runs before the training loop. *)
Definition startup : M loader :=
  let dev := select_device in
  ds ← make_dataset;
  dl ← make_loader ds;
  make_modules dev;;
  resume_checkpoint dev;;
  make_log;;
  make_criterion dev;;
  make_optimizer;;
  mret dl.

(** Lines 102-113: the branch on [criterion_type] inside the loop. *)
Definition score_batch (y : tensor) (target : list Z) : M unit :=
  ct ← getattr "criterion_type";
  if str_eq ct "classification" then
    c ← get_counter;
    let '(scores, l) := criterion_fwd E c y target in
    emit ECriterionCall;;
    assign_loss l;;
    let preds := topk1_indices scores in
    acc ← true_div (sum_item (eq_broadcast preds target)) (size0 y);
    step ← get_counter;
    emit (EAddScalar "acc" acc step)
  else
    ct' ← getattr "criterion_type";
    if str_eq ct' "metriclearning" then mret tt
    else mret tt.

(** Lines 95-122: one iteration of the inner loop. *)
Definition batch_body (b : batch) : M unit :=
  emit (EToDevice TX);;
  let x := feature_extractor E (batch_x b) in
  emit EFeatureExtract;;
  emit (EToDevice TTarget);;
  c ← get_counter;
  let y := model_fwd E c x in
  emit EForward;;
  score_batch y (batch_target b);;
  emit EZeroGrad;;
  l ← read_loss;
  emit EBackward;;
  emit EOptimizerStep;;
  l' ← read_loss;
  step ← get_counter;
  emit (EAddScalar "loss" l' step);;
  n ← get_counter;
  set_counter (n + 1).

(** Lines 125-137. *)
Definition save_checkpoint (e : nat) : M unit :=
  sm ← getattr "save_model";
  if truthy sm then
    emit (ESave Model (checkpoint_file "model" e));;
    emit (ESave Criterion (checkpoint_file "crit" e));;
    emit (ESave Optimizer (checkpoint_file "optim" e))
  else mret tt.

(** Lines 93-137: one iteration of the outer loop. *)
Definition epoch_body (dl : loader) (e : nat) : M unit :=
  emit (EPrint (epoch_banner e));;
  forM_ (dl_iter E (dl_ds dl) (dl_batch_size dl) e) batch_body;;
  save_checkpoint e.

(** Lines 91-137. *)
Definition training_loop (dl : loader) : M unit :=
  set_counter 0;;
  n ← getattr "num_epochs";
  epochs ← py_range n;
  forM_ epochs (epoch_body dl).

(** The whole script. *)
Definition trainer : M unit :=
  dl ← startup;
  training_loop dl.

(** Running the script on a parsed configuration. *)
Definition run (cfg : gmap string value) : (exn + unit) * pystate :=
  trainer (init cfg).

End Trainer.

(** ** A concrete configuration and environment, used in the examples *)

Definition base_cfg : gmap string value :=
  list_to_map [
    ("csv_path", VStr "train.csv"); ("win_length", VInt 400);
    ("hop_length", VInt 160); ("num_frames", VInt 200);
    ("spk_samples", VInt 2); ("batch_size", VInt 2);
    ("num_workers", VInt 0); ("model_path", VNone);
    ("logdir", VStr "runs"); ("repr_dim", VInt 4); ("num_spkr", VInt 5);
    ("m", VFloat (1 # 5)); ("s", VFloat 30);
    ("init_m", VFloat (-1)); ("init_s", VFloat 10);
    ("lr", VFloat (1 # 1000)); ("criterion_lr", VFloat (1 # 1000));
    ("num_epochs", VInt 1); ("save_model", VBool true)
  ].

Definition cfg_classification : gmap string value :=
  <["criterion_type" := VStr "classification"]>
    (<["criterion" := VStr "cosface"]> base_cfg).

Definition cfg_metriclearning : gmap string value :=
  <["criterion_type" := VStr "metriclearning"]>
    (<["criterion" := VStr "prototypical"]> base_cfg).

(** One batch of two utterances, both of speaker 0; the criterion scores
    class 0 highest for both. *)
Definition two_same : batch :=
  Batch [[1; 0]; [0; 1]]%Q [0; 0]%Z.

Definition env_two_same : env := {|
  cuda_is_available := false;
  ds_len := λ _, 3%nat;
  dl_iter := λ _ _ _, [two_same];
  feature_extractor := λ x, x;
  model_fwd := λ _ x, x;
  criterion_fwd := λ _ _ _, ([[1; 0]; [1; 0]]%Q, 1%Q)
|}.

(** ** Predicates over events and traces *)

(** Events of the training loop proper: the per-batch steps. *)
Definition is_training_step (ev : event) : bool :=
  match ev with
  | EToDevice _ | EFeatureExtract | EForward | ECriterionCall
  | EAddScalar _ _ _ | EZeroGrad | EBackward | EOptimizerStep => true
  | _ => false
  end.

Definition is_criterion_ctor (ev : event) : bool :=
  match ev with ECriterionCtor _ _ _ => true | _ => false end.

Definition is_save (ev : event) : bool :=
  match ev with ESave _ _ => true | _ => false end.

Definition is_loss_log (ev : event) : bool :=
  match ev with EAddScalar tag _ _ => String.eqb tag "loss" | _ => false end.

(** Number of ['loss'] scalars in a trace: one is logged per completed batch. *)
Fixpoint count_loss (tr : list event) : nat :=
  match tr with
  | [] => 0
  | ev :: r => (if is_loss_log ev then 1 else 0) + count_loss r
  end.

(** The checkpoint writes of a trace, in order. *)
Definition saves (tr : list event) : list event := List.filter is_save tr.

(** Events recorded by the training loop (lines 91-137). *)
Definition loop_event (ev : event) : bool :=
  match ev with
  | EPrint _ | ESave _ _ => true
  | _ => is_training_step ev
  end.

(** Every scalar is logged under the number of batches completed before it. *)
Fixpoint log_steps_from (c : nat) (tr : list event) : Prop :=
  match tr with
  | [] => True
  | ev :: r =>
      match ev with
      | EAddScalar _ _ step => step = c
      | _ => True
      end ∧ log_steps_from (if is_loss_log ev then S c else c) r
  end.

(** The three files written at the end of epoch [e] (0-based loop index). *)
Definition epoch_checkpoints (e : nat) : list event :=
  [ESave Model (checkpoint_file "model" e);
   ESave Criterion (checkpoint_file "crit" e);
   ESave Optimizer (checkpoint_file "optim" e)].

(** The epochs [range(v)] iterates over, when [v] is an integer. *)
Definition range_list (v : value) : option (list nat) :=
  match v with
  | VInt z => Some (seq 0 (Z.to_nat z))
  | VBool b => Some (seq 0 (if b then 1 else 0))
  | _ => None
  end.

(** ** Weakest preconditions for the monad *)

Definition wp {A} (m : M A) (Q : A → pystate → Prop)
    (X : exn → pystate → Prop) (s : pystate) : Prop :=
  match m s with
  | (inr a, s') => Q a s'
  | (inl e, s') => X e s'
  end.

(** ** Specification-side definitions *)

Definition msg_criterion_type : string := "args.criterion-type: no valid criterion type".
Definition msg_criterion : string := "args.criterion: no valid criterion function".

(** The dataset the classification branch constructs from a configuration. *)
Definition classification_dataset (cfg : gmap string value) : option dataset :=
  csv ← cfg !! "csv_path";
  wl ← cfg !! "win_length";
  hl ← cfg !! "hop_length";
  nf ← cfg !! "num_frames";
  Some (Dataset ClassificationVCDS [csv; wl; hl; nf]).

(** The namespace after start-up: as parsed, or with [num_spkr] replaced by
    the length of the classification dataset. *)
Definition args_after (E : env) (cfg a : gmap string value) : Prop :=
  a = cfg ∨
  ∃ ct ds, cfg !! "criterion_type" = Some ct ∧ str_eq ct "classification" = true ∧
           classification_dataset cfg = Some ds ∧
           a = <["num_spkr" := VInt (Z.of_nat (ds_len E ds))]> cfg.

(** The speaker count handed to a criterion constructor (its second
    positional argument). *)
Definition ctor_num_spkr (E : env) (cfg : gmap string value) (a : list value) : Prop :=
  ∃ ns ct, a !! 1%nat = Some ns ∧ cfg !! "criterion_type" = Some ct ∧
    if str_eq ct "classification"
    then ∃ ds, classification_dataset cfg = Some ds ∧
               ns = VInt (Z.of_nat (ds_len E ds))
    else cfg !! "num_spkr" = Some ns.

(** The events start-up may record, relative to the parsed configuration. *)
Definition startup_event (E : env) (cfg : gmap string value) (ev : event) : Prop :=
  match ev with
  | EDataset _ | EDataLoader _ _ _ _ | ETransform _ _ | EModelCtor _ _
  | ESummaryWriter _ | EAdam _ _ => True
  | ELoadStateDict c p _ =>
      c = Model ∧ cfg !! "model_path" = Some p ∧ truthy p = true
  | ECriterionCtor _ a _ => ctor_num_spkr E cfg a
  | _ => False
  end.

Definition startup_inv (E : env) (cfg : gmap string value) (s : pystate) : Prop :=
  counter s = 0%nat ∧ loss s = None ∧
  Forall (startup_event E cfg) (trace s) ∧ args_after E cfg (args s).

(** The exceptions start-up can end in. *)
Definition startup_exn (cfg : gmap string value) (e : exn) : Prop :=
  (∃ k, e = AttributeError k ∧ cfg !! k = None) ∨
  (e = ValueError msg_criterion_type ∧
   ∃ ct, cfg !! "criterion_type" = Some ct ∧
         str_eq ct "classification" = false ∧ str_eq ct "metriclearning" = false) ∨
  (e = ValueError msg_criterion ∧
   (∃ ct, cfg !! "criterion_type" = Some ct ∧
          (str_eq ct "classification" || str_eq ct "metriclearning") = true) ∧
   ∃ c, cfg !! "criterion" = Some c ∧ str_eq c "cosface" = false ∧
        str_eq c "psge2e" = false ∧ str_eq c "prototypical" = false).

(** What holds when start-up returns. *)
Definition startup_done (E : env) (cfg : gmap string value) (dl : loader)
    (s : pystate) : Prop :=
  (∃ nw, EDataLoader (dl_ds dl) (dl_batch_size dl) true nw ∈ trace s) ∧
  (∃ c, cfg !! "criterion" = Some c ∧
        (str_eq c "cosface" || str_eq c "psge2e" || str_eq c "prototypical") = true) ∧
  (∃ k a d, ECriterionCtor k a d ∈ trace s) ∧
  (∃ lr clr, EAdam lr clr ∈ trace s) ∧
  (∀ p, cfg !! "model_path" = Some p → truthy p = true →
        ∃ d, ELoadStateDict Model p d ∈ trace s).

(** [steps s s' t]: from [s] the program reached [s'] recording [t]; the
    namespace is untouched, [t] holds loop events only, every scalar in [t]
    is logged under the number of batches completed before it, and the
    counter advanced by the number of completed batches. *)
Definition steps (s s' : pystate) (t : list event) : Prop :=
  args s' = args s ∧ trace s' = trace s ++ t ∧
  Forall (λ ev, loop_event ev = true) t ∧
  log_steps_from (counter s) t ∧
  counter s' = (counter s + count_loss t)%nat.

(** The flag tested by [if args.save_model:] and the epochs of
    [range(args.num_epochs)], read off a namespace. *)
Definition save_flag (a : gmap string value) : bool :=
  match a !! "save_model" with
  | Some sv => truthy sv
  | None => false
  end.

Definition epochs_of (a : gmap string value) : list nat :=
  match a !! "num_epochs" with
  | Some nv => default [] (range_list nv)
  | None => []
  end.

(** Number of batches the loader yields over a list of epochs. *)
Definition total_batches (E : env) (dl : loader) (eps : list nat) : nat :=
  sum_list (map (λ e, length (dl_iter E (dl_ds dl) (dl_batch_size dl) e)) eps).

(** Events that are neither scalars nor any other per-batch step. *)
Definition quiet (ev : event) : bool :=
  negb (is_training_step ev).

(** [loop_run s s' t]: the training loop, started in [s], reached [s']
    recording [t]; the counter was reset to zero at the start. *)
Definition loop_run (s s' : pystate) (t : list event) : Prop :=
  args s' = args s ∧ trace s' = trace s ++ t ∧
  Forall (λ ev, loop_event ev = true) t ∧
  log_steps_from 0 t ∧ counter s' = count_loss t.

(** The fields the script reads before it dispatches on [criterion]. *)
Definition early_fields : list string :=
  ["criterion_type"; "csv_path"; "win_length"; "hop_length"; "num_frames";
   "spk_samples"; "batch_size"; "num_workers"; "model_path"; "logdir"].

Definition criterion_type_valid (cfg : gmap string value) : bool :=
  match cfg !! "criterion_type" with
  | Some ct => str_eq ct "classification" || str_eq ct "metriclearning"
  | None => false
  end.

Definition cfg_resume : gmap string value :=
  <["model_path" := VStr "models/model_03.pt"]> cfg_classification.

(** The model output, the accuracy and the loss of batch [b] when [c]
    batches have been completed. *)
Definition batch_y (E : env) (c : nat) (b : batch) : tensor :=
  model_fwd E c (feature_extractor E (batch_x b)).

Definition batch_accuracy (E : env) (c : nat) (b : batch) : Q :=
  let y := batch_y E c b in
  let scores := (criterion_fwd E c y (batch_target b)).1 in
  Z.of_nat (sum_item (eq_broadcast (topk1_indices scores) (batch_target b)))
  # Pos.of_nat (size0 y).

Definition batch_loss (E : env) (c : nat) (b : batch) : Q :=
  (criterion_fwd E c (batch_y E c b) (batch_target b)).2.

(** What one classification batch records, in order. *)
Definition batch_events (E : env) (c : nat) (b : batch) : list event :=
  [EToDevice TX; EFeatureExtract; EToDevice TTarget; EForward; ECriterionCall;
   EAddScalar "acc" (batch_accuracy E c b) c;
   EZeroGrad; EBackward; EOptimizerStep;
   EAddScalar "loss" (batch_loss E c b) c].

Fixpoint batches_events (E : env) (c : nat) (bs : list batch) : list event :=
  match bs with
  | [] => []
  | b :: r => batch_events E c b ++ batches_events E (S c) r
  end.

Fixpoint epochs_events (E : env) (dl : loader) (flag : bool) (c : nat)
    (eps : list nat) : list event :=
  match eps with
  | [] => []
  | e :: r =>
      let bs := dl_iter E (dl_ds dl) (dl_batch_size dl) e in
      EPrint (epoch_banner e) :: batches_events E c bs
        ++ (if flag then epoch_checkpoints e else [])
        ++ epochs_events E dl flag (c + length bs) r
  end.

(** The kinds of step the contract lists for one batch, and the order it
    lists them in (device moves and scalar logs may each repeat). *)
Inductive step_kind :=
| KMove | KFeature | KForward | KLoss | KZeroGrad | KBackward | KOptStep | KLog.

#[local] Instance step_kind_eq_dec : EqDecision step_kind.
Proof. solve_decision. Defined.

Definition step_kind_of (ev : event) : option step_kind :=
  match ev with
  | EToDevice _ => Some KMove
  | EFeatureExtract => Some KFeature
  | EForward => Some KForward
  | ECriterionCall => Some KLoss
  | EZeroGrad => Some KZeroGrad
  | EBackward => Some KBackward
  | EOptimizerStep => Some KOptStep
  | EAddScalar _ _ _ => Some KLog
  | _ => None
  end.

Definition claimed_step_order : list step_kind :=
  [KMove; KFeature; KForward; KLoss; KZeroGrad; KBackward; KOptStep; KLog].

(** Adjacent repetitions of a kind count once. *)
Fixpoint squash (l : list step_kind) : list step_kind :=
  match l with
  | [] => []
  | k :: r =>
      match r with
      | k' :: _ => if decide (k = k') then squash r else k :: squash r
      | [] => [k]
      end
  end.

Definition step_order (t : list event) : list step_kind :=
  squash (omap step_kind_of t).

Definition loader_two_same : loader :=
  Loader (Dataset ClassificationVCDS
            [VStr "train.csv"; VInt 400; VInt 160; VInt 200]) (VInt 2).

Definition is_acc_log (ev : event) : bool :=
  match ev with EAddScalar tag _ _ => String.eqb tag "acc" | _ => false end.

(** The quantity the accuracy is meant to be: the number of rows whose
    top-1 prediction equals the target of the same row. *)
Definition matching_top1 (preds : list (list Z)) (target : list Z) : nat :=
  length (filter (λ b, b = true)
            (zip_with (λ row t, match row with
                                | [p] => Z.eqb p t
                                | _ => false
                                end) preds target)).

(** ** Further properties: what start-up builds *)

(** The configuration string that selects each dataset variant and each
    criterion, and the namespace fields passed to their constructors, in
    argument order. *)
Definition dataset_name (k : dataset_kind) : string :=
  match k with
  | ClassificationVCDS => "classification"
  | MetricLearningVCDS => "metriclearning"
  end.

Definition dataset_fields (k : dataset_kind) : list string :=
  match k with
  | ClassificationVCDS => ["csv_path"; "win_length"; "hop_length"; "num_frames"]
  | MetricLearningVCDS =>
      ["csv_path"; "win_length"; "hop_length"; "num_frames"; "spk_samples"]
  end.

Definition ctor_name (k : criterion_kind) : string :=
  match k with
  | CosFace => "cosface"
  | PSGE2E => "psge2e"
  | Prototypical => "prototypical"
  end.

Definition ctor_fields (k : criterion_kind) : list string :=
  match k with
  | CosFace => ["repr_dim"; "num_spkr"; "m"; "s"]
  | PSGE2E => ["repr_dim"; "num_spkr"; "init_m"; "init_s"]
  | Prototypical => ["repr_dim"; "num_spkr"]
  end.

(** The values of a list of fields in a namespace, when all are present. *)
Fixpoint read_fields (a : gmap string value) (fs : list string) : option (list value) :=
  match fs with
  | [] => Some []
  | f :: r =>
      match a !! f with
      | Some v =>
          match read_fields a r with
          | Some vs => Some (v :: vs)
          | None => None
          end
      | None => None
      end
  end.

(** [built E a ev]: the start-up event [ev] was made on the device selected
    at line 23 from the fields of namespace [a]. *)
Definition built (E : env) (a : gmap string value) (ev : event) : Prop :=
  match ev with
  | EDataset ds =>
      a !! "criterion_type" = Some (VStr (dataset_name (ds_kind ds))) ∧
      read_fields a (dataset_fields (ds_kind ds)) = Some (ds_args ds) ∧
      (ds_kind ds = ClassificationVCDS →
       a !! "num_spkr" = Some (VInt (Z.of_nat (ds_len E ds))))
  | EDataLoader _ bs shuffle nw =>
      shuffle = true ∧ a !! "batch_size" = Some bs ∧
      a !! "num_workers" = Some nw
  | ETransform kw d | EModelCtor kw d => kw = a ∧ d = select_device E
  | ELoadStateDict c p d =>
      c = Model ∧ a !! "model_path" = Some p ∧ truthy p = true ∧
      d = select_device E
  | ESummaryWriter ld => a !! "logdir" = Some ld
  | ECriterionCtor k cargs d =>
      a !! "criterion" = Some (VStr (ctor_name k)) ∧
      read_fields a (ctor_fields k) = Some cargs ∧ d = select_device E
  | EAdam lr clr => a !! "lr" = Some lr ∧ a !! "criterion_lr" = Some clr
  | _ => False
  end.

(** The calls of a start-up that returns, in order. *)
Definition startup_calls (E : env) (a : gmap string value) (ds : dataset)
    (bs nw mp ld : value) (k : criterion_kind) (cargs : list value)
    (lr clr : value) : list event :=
  [EDataset ds; EDataLoader ds bs true nw;
   ETransform a (select_device E); EModelCtor a (select_device E)]
  ++ (if truthy mp then [ELoadStateDict Model mp (select_device E)] else [])
  ++ [ESummaryWriter ld; ECriterionCtor k cargs (select_device E);
      EAdam lr clr].

Definition startup_shape (E : env) (dl : loader) (s : pystate) : Prop :=
  ∃ nw mp ld k cargs lr clr,
    args s !! "model_path" = Some mp ∧
    trace s = startup_calls E (args s) (dl_ds dl) (dl_batch_size dl)
                nw mp ld k cargs lr clr.

(** The device an event was given, if any. *)
Definition event_device (ev : event) : option device :=
  match ev with
  | ETransform _ d | EModelCtor _ d | ELoadStateDict _ _ d
  | ECriterionCtor _ _ d => Some d
  | _ => None
  end.

(** ** Further properties: the loop *)

(** Steps that need or produce a loss. *)
Definition is_scoring (ev : event) : bool :=
  match ev with
  | ECriterionCall | EAddScalar _ _ _ | EBackward | EOptimizerStep => true
  | _ => false
  end.

Definition is_backward (ev : event) : bool :=
  match ev with EBackward => true | _ => false end.

Definition is_optimizer_step (ev : event) : bool :=
  match ev with EOptimizerStep => true | _ => false end.

Definition count_events (p : event → bool) (tr : list event) : nat :=
  length (List.filter p tr).

(** An ['acc'] scalar between 0 and [N]. *)
Definition acc_bounded (N : nat) (ev : event) : Prop :=
  match ev with
  | EAddScalar tag v _ =>
      tag = "acc" → (0 <= v)%Q ∧ (v <= inject_Z (Z.of_nat N))%Q
  | _ => True
  end.

Definition msg_range : string := "object cannot be interpreted as an integer".

(** The exceptions the training loop can end in, relative to the namespace
    it runs with. *)
Definition loop_exn (a : gmap string value) (e : exn) : Prop :=
  (∃ k, e = AttributeError k ∧ a !! k = None) ∨
  (e = TypeError msg_range ∧
   ∃ nv, a !! "num_epochs" = Some nv ∧ range_list nv = None) ∨
  (e = ZeroDivisionError ∧
   a !! "criterion_type" = Some (VStr "classification")) ∨
  (e = NameError "loss" ∧
   ∃ ct, a !! "criterion_type" = Some ct ∧ str_eq ct "classification" = false).

(** The exceptions a run can end in, relative to the parsed configuration. *)
Definition run_exn (cfg : gmap string value) (e : exn) : Prop :=
  startup_exn cfg e ∨
  (e = TypeError msg_range ∧
   ∃ nv, cfg !! "num_epochs" = Some nv ∧ range_list nv = None) ∨
  (e = ZeroDivisionError ∧
   cfg !! "criterion_type" = Some (VStr "classification")) ∨
  (e = NameError "loss" ∧
   cfg !! "criterion_type" = Some (VStr "metriclearning")).

(** The state after [ev] is recorded; the state after the counter is set. *)
Definition record (ev : event) (s : pystate) : pystate :=
  {| args := args s; counter := counter s; loss := loss s;
     trace := trace s ++ [ev] |}.

Definition with_counter (n : nat) (s : pystate) : pystate :=
  {| args := args s; counter := n; loss := loss s; trace := trace s |}.

(** [int(s)] for a string of decimal digits. *)
Definition parse_nat (s : string) : option nat :=
  option_map Nat.of_uint (NilZero.uint_of_string s).

Definition checkpoint_stems : list string := ["model"; "crit"; "optim"].

Definition cfg_no_epochs : gmap string value :=
  <["num_epochs" := VInt 0]> cfg_classification.

Definition cfg_no_num_spkr : gmap string value :=
  delete "num_spkr" cfg_metriclearning.

(** [pairs_bounded E N b]: on batch [b] the comparison of line 108 counts
    at most [N] matches per row of the model output. *)
Definition pairs_bounded (E : env) (N : nat) (b : batch) : Prop :=
  ∀ c, (sum_item (eq_broadcast
                    (topk1_indices
                       (criterion_fwd E c (batch_y E c b) (batch_target b)).1)
                    (batch_target b))
        ≤ size0 (batch_y E c b) * N)%nat.

Definition two_distinct : batch :=
  Batch [[1; 0]; [0; 1]]%Q [0; 1]%Z.

Definition env_two_distinct : env := {|
  cuda_is_available := true;
  ds_len := λ _, 3%nat;
  dl_iter := λ _ _ _, [two_distinct];
  feature_extractor := λ x, x;
  model_fwd := λ _ x, x;
  criterion_fwd := λ _ y _, (y, 1%Q)
|}.

(** A scalar of a run in mode [a !! "criterion_type"]. *)
Definition scalar_ok (a : gmap string value) (ev : event) : Prop :=
  match ev with
  | EAddScalar tag _ _ =>
      a !! "criterion_type" = Some (VStr "classification") ∧
      (tag = "acc" ∨ tag = "loss")
  | _ => True
  end.

(** ** Whole runs: the namespace, the loader, the checkpoint names *)

(** The dataset a trace constructs first, if any. *)
Fixpoint first_dataset (tr : list event) : option dataset :=
  match tr with
  | [] => None
  | EDataset ds :: _ => Some ds
  | _ :: r => first_dataset r
  end.

(** The namespace once the events [tr] have been recorded: the parsed one,
    with [num_spkr] overwritten by [len(ds)] from the moment a
    [ClassificationVCDS] has been constructed. *)
Definition namespace_after (E : env) (cfg : gmap string value)
    (tr : list event) : gmap string value :=
  match first_dataset tr with
  | Some ds =>
      match ds_kind ds with
      | ClassificationVCDS =>
          <["num_spkr" := VInt (Z.of_nat (ds_len E ds))]> cfg
      | MetricLearningVCDS => cfg
      end
  | None => cfg
  end.

(** Two speakers, one utterance each, visited in an order that depends on
    the epoch; the criterion scores are the model output. *)
Definition env_speakers : env := {|
  cuda_is_available := false;
  ds_len := λ _, 2%nat;
  dl_iter := λ _ _ e,
    [if Nat.even e then Batch [[1; 0]; [0; 1]]%Q [0; 1]%Z
     else Batch [[0; 1]; [1; 0]]%Q [1; 0]%Z];
  feature_extractor := λ x, x;
  model_fwd := λ _ x, x;
  criterion_fwd := λ _ y _, (y, 1%Q)
|}.



(** The decimal digit [d] as a character. *)
Definition digit_char (d : nat) : Ascii.ascii := Ascii.ascii_of_nat (48 + d).

(** The epoch field of a file name: the epoch number in decimal, on two
    digits up to 99. *)
Definition epoch_field (n : nat) : string :=
  if (n <? 100)%nat
  then String (digit_char (n / 10)) (String (digit_char (n mod 10)) "")
  else str_of_nat n.

(** The three files of the epoch with 0-based loop index [e], named by the
    1-based epoch number. *)
Definition claimed_checkpoints (e : nat) : list event :=
  [ESave Model ("models/model_" ++ epoch_field (e + 1) ++ ".pt")%string;
   ESave Criterion ("models/crit_" ++ epoch_field (e + 1) ++ ".pt")%string;
   ESave Optimizer ("models/optim_" ++ epoch_field (e + 1) ++ ".pt")%string].

(** [epochs_shape flag eps t]: [t] is, for each epoch of [eps] in turn, the
    banner of the epoch, then per-batch steps only, then - as the last
    events of the epoch - its three files when [flag] is set and nothing
    when it is not. *)
Fixpoint epochs_shape (flag : bool) (eps : list nat) (t : list event) : Prop :=
  match eps with
  | [] => t = []
  | e :: r =>
      ∃ B t', Forall (λ ev, is_training_step ev = true) B ∧
        t = EPrint (epoch_banner e) :: B
            ++ (if flag then claimed_checkpoints e else []) ++ t' ∧
        epochs_shape flag r t'
  end.

(** The classification configuration, for three epochs. *)
Definition cfg_three_epochs : gmap string value :=
  <["num_epochs" := VInt 3]> cfg_classification.

(** * Proofs *)

Section WP.
Context {A B : Type}.
Implicit Types (Q : A → pystate → Prop) (X : exn → pystate → Prop).

Lemma wp_bind (m : M A) (f : A → M B) (Q' : B → pystate → Prop) X s :
  wp m (λ a, wp (f a) Q' X) X s → wp (m ≫= f) Q' X s.
Proof.
  unfold wp, mbind, M_bind. destruct (m s) as [[e|a] s']; auto.
Qed.

Lemma wp_ret (a : A) Q X s : Q a s → wp (mret a) Q X s.
Proof. auto. Qed.

Lemma wp_raise (e : exn) Q X s : X e s → wp (raise e) Q X s.
Proof. auto. Qed.

Lemma wp_mono (m : M A) Q Q' X X' s :
  (∀ a s', Q a s' → Q' a s') → (∀ e s', X e s' → X' e s') →
  wp m Q X s → wp m Q' X' s.
Proof.
  unfold wp. intros HQ HX. destruct (m s) as [[e|a] s']; auto.
Qed.

Lemma wp_run (m : M A) Q X s : wp m Q X s →
  match (m s).1 with
  | inr a => Q a (m s).2
  | inl e => X e (m s).2
  end.
Proof. unfold wp. destruct (m s) as [[e|a] s']; auto. Qed.
End WP.

Lemma wp_getattr (k : string) Q X s :
  match args s !! k with
  | Some v => Q v s
  | None => X (AttributeError k) s
  end → wp (getattr k) Q X s.
Proof. unfold wp, getattr. destruct (args s !! k); auto. Qed.

Lemma wp_read_loss Q X s :
  match loss s with
  | Some l => Q l s
  | None => X (NameError "loss") s
  end → wp read_loss Q X s.
Proof. unfold wp, read_loss. destruct (loss s); auto. Qed.

Lemma wp_forM {A} (I : pystate → Prop) (l : list A) (f : A → M unit)
    (X : exn → pystate → Prop) s :
  I s → (∀ a s', a ∈ l → I s' → wp (f a) (λ _, I) X s') →
  wp (forM_ l f) (λ _, I) X s.
Proof.
  revert s. induction l as [|a l IH]; intros s HI Hf; simpl.
  - exact HI.
  - apply wp_bind. eapply wp_mono; [| |apply Hf; [left|exact HI]]; simpl; auto.
    intros _ s' HI'. apply IH; auto. intros b s'' Hb. apply Hf. by right.
Qed.

(** Symbolic execution: one primitive at a time. *)
Ltac wp_simpl := cbn [args counter loss trace fst snd].

Ltac wp_lookup :=
  wp_simpl;
  rewrite ?lookup_insert_eq, ?lookup_insert_ne by done;
  lazymatch goal with
  | H : ?o = _ |- match ?o with _ => _ end => rewrite H
  | |- match ?o with _ => _ end =>
      let v := fresh "v" in let Hk := fresh "Hk" in
      destruct o as [v|] eqn:Hk
  | |- _ => idtac
  end.

Ltac wp_step :=
  lazymatch goal with
  | |- wp (mbind _ _) _ _ _ => apply wp_bind
  | |- wp (mret _) _ _ _ => apply wp_ret
  | |- wp (raise _) _ _ _ => apply wp_raise
  | |- wp (getattr _) _ _ _ => apply wp_getattr; wp_lookup
  | |- wp (emit _) _ _ _ => unfold wp at 1, emit at 1
  | |- wp (setattr _ _) _ _ _ => unfold wp at 1, setattr at 1
  | |- wp read_kwargs _ _ _ => unfold wp at 1, read_kwargs at 1
  | |- wp get_counter _ _ _ => unfold wp at 1, get_counter at 1
  | |- wp (set_counter _) _ _ _ => unfold wp at 1, set_counter at 1
  | |- wp (assign_loss _) _ _ _ => unfold wp at 1, assign_loss at 1
  | |- wp read_loss _ _ _ => apply wp_read_loss; wp_lookup
  | |- wp (true_div _ ?b) _ _ _ =>
      let Hb := fresh "Hb" in unfold true_div at 1; destruct b eqn:Hb
  | |- wp (if ?b then _ else _) _ _ _ =>
      let Hb := fresh "Hb" in destruct b eqn:Hb
  | |- wp (let '(_, _) := ?p in _) _ _ _ =>
      let Hp := fresh "Hp" in destruct p eqn:Hp
  end; wp_simpl.

(** ** The start-up phase (lines 17-88) *)

Ltac use_lookups :=
  repeat match goal with
         | H : _ !! _ = _ |- _ => rewrite H
         | H : str_eq _ _ = _ |- _ => rewrite H
         end.

Ltac find_event :=
  cbn [app dl_ds dl_batch_size];
  repeat first [ apply list_elem_of_here | apply list_elem_of_further ].

Ltac startup_leaf :=
  repeat match goal with
         | |- _ ∧ _ => split
         | |- Forall _ [] => constructor
         | |- Forall _ (_ :: _) => constructor
         | |- Forall _ (_ ++ _) => apply Forall_app
         | |- startup_event _ _ _ => unfold startup_event
         | |- True => exact I
         | |- _ !! _ = _ => eassumption
         | |- truthy _ = _ => assumption
         | |- str_eq _ _ = _ => assumption
         | |- (_ || _) = true => use_lookups; reflexivity
         | |- args_after _ ?c ?c => left; reflexivity
         | |- args_after _ _ _ => right; eexists _, _
         | |- classification_dataset _ = Some _ =>
             unfold classification_dataset; use_lookups; reflexivity
         | |- ctor_num_spkr _ _ _ =>
             eexists _, _; split; [reflexivity|]; split; [eassumption|];
             use_lookups
         | |- ∃ ds, classification_dataset _ = Some ds ∧ _ => eexists
         | |- startup_exn _ (AttributeError _) => left; eexists
         | |- startup_exn _ (ValueError "args.criterion-type: no valid criterion type") =>
             right; left
         | |- startup_exn _ (ValueError "args.criterion: no valid criterion function") =>
             right; right
         | |- ∃ ct, _ !! "criterion_type" = Some ct ∧ _ => eexists
         | |- ∃ c, _ !! "criterion" = Some c ∧ _ => eexists
         | |- ∃ nw, EDataLoader _ _ _ nw ∈ _ => eexists; find_event
         | |- ∃ k a d, ECriterionCtor k a d ∈ _ => eexists _, _, _; find_event
         | |- ∃ lr clr, EAdam lr clr ∈ _ => eexists _, _; find_event
         | |- ∀ p, _ !! "model_path" = Some p → _ =>
             let Hp := fresh in let Ht := fresh in
             intros ? Hp Ht; simplify_eq; try congruence;
             eexists; find_event
         | |- _ = _ => reflexivity
         end.

Lemma startup_spec E cfg :
  wp (startup E)
     (λ dl s, startup_inv E cfg s ∧ startup_done E cfg dl s)
     (λ e s, startup_inv E cfg s ∧ startup_exn cfg e)
     (init cfg).
Proof.
  unfold startup, make_dataset, make_loader, make_modules, resume_checkpoint,
    make_log, make_criterion, make_optimizer, init.
  repeat wp_step; unfold startup_inv, startup_done; wp_simpl; startup_leaf.
Qed.

(** ** The training loop (lines 91-137) *)

Lemma count_loss_app t1 t2 :
  count_loss (t1 ++ t2) = (count_loss t1 + count_loss t2)%nat.
Proof. induction t1 as [|ev t1 IH]; simpl; [done|]. rewrite IH. lia. Qed.

Lemma log_steps_from_app c t1 t2 :
  log_steps_from c (t1 ++ t2) ↔
  log_steps_from c t1 ∧ log_steps_from (c + count_loss t1) t2.
Proof.
  revert c. induction t1 as [|ev t1 IH]; intros c; simpl.
  - rewrite Nat.add_0_r. tauto.
  - rewrite IH. destruct (is_loss_log ev); simpl;
      rewrite ?Nat.add_succ_r, ?Nat.add_0_l; tauto.
Qed.

Lemma saves_app t1 t2 : saves (t1 ++ t2) = saves t1 ++ saves t2.
Proof. apply List.filter_app. Qed.

Lemma steps_refl s : steps s s [].
Proof.
  unfold steps; simpl. rewrite app_nil_r, Nat.add_0_r. auto.
Qed.

Lemma steps_trans s1 s2 s3 t t' :
  steps s1 s2 t → steps s2 s3 t' → steps s1 s3 (t ++ t').
Proof.
  intros (Ha & Ht & Hf & Hl & Hc) (Ha' & Ht' & Hf' & Hl' & Hc').
  repeat split.
  - congruence.
  - rewrite Ht', Ht. by rewrite app_assoc.
  - by apply Forall_app.
  - apply log_steps_from_app. split; [done|]. by rewrite <- Hc.
  - rewrite Hc', Hc, count_loss_app. lia.
Qed.

Ltac steps_leaf :=
  wp_simpl; rewrite <- ?app_assoc; cbn [app];
  eexists; split;
  [ unfold steps; wp_simpl;
    split; [reflexivity|]; split; [reflexivity|];
    split; [solve [repeat constructor]|];
    split; [simpl; repeat split; done | simpl; lia]
  | ]; split; reflexivity.

(** One batch: whatever the outcome, only training steps are recorded and
    no file is written; a completed batch logs exactly one loss. *)
Lemma batch_body_spec E b s :
  wp (batch_body E b)
     (λ _ s', ∃ t, steps s s' t ∧ count_loss t = 1%nat ∧ saves t = [])
     (λ _ s', ∃ t, steps s s' t ∧ count_loss t = 0%nat ∧ saves t = [])
     s.
Proof.
  unfold batch_body, score_batch.
  repeat wp_step.
  all: steps_leaf.
Qed.

Lemma wp_py_range (v : value) Q X s :
  match range_list v with
  | Some l => Q l s
  | None => X (TypeError "object cannot be interpreted as an integer") s
  end → wp (py_range v) Q X s.
Proof. destruct v; simpl; auto. Qed.

Lemma batches_spec E bs s :
  wp (forM_ bs (batch_body E))
     (λ _ s', ∃ t, steps s s' t ∧ count_loss t = length bs ∧ saves t = [])
     (λ _ s', ∃ t, steps s s' t ∧ saves t = [])
     s.
Proof.
  revert s. induction bs as [|b bs IH]; intros s; simpl.
  - apply wp_ret. exists []. auto using steps_refl.
  - apply wp_bind.
    eapply wp_mono; [| |apply batch_body_spec].
    + intros _ s1 (t1 & H1 & Hc1 & Hs1). simpl.
      eapply wp_mono; [| |apply IH].
      * intros _ s2 (t2 & H2 & Hc2 & Hs2). exists (t1 ++ t2).
        split; [eauto using steps_trans|].
        rewrite count_loss_app, saves_app, Hc1, Hc2, Hs1, Hs2. auto.
      * intros _ s2 (t2 & H2 & Hs2). exists (t1 ++ t2).
        split; [eauto using steps_trans|].
        by rewrite saves_app, Hs1, Hs2.
    + intros _ s1 (t1 & H1 & _ & Hs1). eauto.
Qed.

Lemma quiet_log_steps c t :
  Forall (λ ev, quiet ev = true) t → log_steps_from c t ∧ count_loss t = 0%nat.
Proof.
  induction 1 as [|ev t Hq _ [IH1 IH2]]; simpl; [done|].
  destruct ev; simpl in *; try discriminate; auto.
Qed.

Lemma steps_emit_quiet s t :
  Forall (λ ev, loop_event ev = true) t → Forall (λ ev, quiet ev = true) t →
  steps s {| args := args s; counter := counter s; loss := loss s;
             trace := trace s ++ t |} t.
Proof.
  intros Hev Hq. destruct (quiet_log_steps (counter s) t Hq) as [Hl Hc].
  unfold steps; simpl. rewrite Hc, Nat.add_0_r. auto.
Qed.

Lemma epoch_body_spec E dl e s :
  wp (epoch_body E dl e)
     (λ _ s', ∃ t, steps s s' t ∧
        count_loss t = length (dl_iter E (dl_ds dl) (dl_batch_size dl) e) ∧
        saves t = if save_flag (args s) then epoch_checkpoints e else [])
     (λ _ s', ∃ t, steps s s' t ∧ saves t = [])
     s.
Proof.
  unfold epoch_body. apply wp_bind. wp_step.
  assert (steps s {| args := args s; counter := counter s; loss := loss s;
                     trace := trace s ++ [EPrint (epoch_banner e)] |}
            [EPrint (epoch_banner e)]) as H0
    by (apply steps_emit_quiet; repeat constructor).
  apply wp_bind. eapply wp_mono; [| |apply batches_spec].
  - intros _ s1 (t1 & H1 & Hc1 & Hs1). simpl.
    pose proof (steps_trans _ _ _ _ _ H0 H1) as H01.
    assert (args s1 = args s) as Ha by apply H01.
    unfold save_checkpoint, save_flag. rewrite <- Ha.
    wp_step; repeat wp_step.
    + eexists. split; [|split].
      * eapply steps_trans; [exact H01|].
        rewrite <- !app_assoc. cbn [app].
        apply steps_emit_quiet; repeat constructor.
      * rewrite !count_loss_app, Hc1. simpl. lia.
      * rewrite !saves_app, Hs1. reflexivity.
    + eexists. split; [exact H01|]. split.
      * rewrite count_loss_app, Hc1. reflexivity.
      * by rewrite saves_app, Hs1.
    + eexists. split; [exact H01|]. by rewrite saves_app, Hs1.
  - intros _ s1 (t1 & H1 & Hs1). eexists. split.
    + eapply steps_trans; [exact H0|exact H1].
    + by rewrite saves_app, Hs1.
Qed.

Lemma epochs_spec E dl eps s :
  wp (forM_ eps (epoch_body E dl))
     (λ _ s', ∃ t, steps s s' t ∧ count_loss t = total_batches E dl eps ∧
        saves t = if save_flag (args s)
                  then flat_map epoch_checkpoints eps else [])
     (λ _ s', ∃ t done, steps s s' t ∧ done `prefix_of` eps ∧
        saves t = if save_flag (args s)
                  then flat_map epoch_checkpoints done else [])
     s.
Proof.
  revert s. induction eps as [|e eps IH]; intros s; simpl.
  - apply wp_ret. exists []. split; [apply steps_refl|].
    split; [reflexivity|]. by destruct (save_flag (args s)).
  - apply wp_bind. eapply wp_mono; [| |apply epoch_body_spec].
    + intros _ s1 (t1 & H1 & Hc1 & Hs1). simpl.
      assert (args s1 = args s) as Ha by apply H1.
      eapply wp_mono; [| |apply IH].
      * intros _ s2 (t2 & H2 & Hc2 & Hs2). exists (t1 ++ t2).
        split; [eauto using steps_trans|]. split.
        -- rewrite count_loss_app, Hc1, Hc2. reflexivity.
        -- rewrite saves_app, Hs1, Hs2, Ha.
           destruct (save_flag (args s)); reflexivity.
      * intros _ s2 (t2 & done & H2 & Hp & Hs2).
        exists (t1 ++ t2), (e :: done).
        split; [eauto using steps_trans|]. split.
        -- by apply prefix_cons.
        -- rewrite saves_app, Hs1, Hs2, Ha.
           destruct (save_flag (args s)); reflexivity.
    + intros _ s1 (t1 & H1 & Hs1). exists t1, [].
      split; [done|]. split; [apply prefix_nil|].
      rewrite Hs1. by destruct (save_flag (args s)).
Qed.

Lemma training_loop_spec E dl s :
  wp (training_loop E dl)
     (λ _ s', ∃ t, loop_run s s' t ∧
        count_loss t = total_batches E dl (epochs_of (args s)) ∧
        saves t = if save_flag (args s)
                  then flat_map epoch_checkpoints (epochs_of (args s)) else [])
     (λ _ s', ∃ t done, loop_run s s' t ∧
        done `prefix_of` epochs_of (args s) ∧
        saves t = if save_flag (args s)
                  then flat_map epoch_checkpoints done else [])
     s.
Proof.
  unfold training_loop, epochs_of. do 4 wp_step.
  - apply wp_bind, wp_py_range. destruct (range_list v) as [eps|]; simpl.
    + eapply wp_mono; [| |apply epochs_spec].
      * intros _ s' (t & H & Hc & Hs). exists t. split; [exact H|]. auto.
      * intros _ s' (t & done & H & Hp & Hs). exists t, done.
        split; [exact H|]. auto.
    + exists [], []. unfold loop_run; simpl. rewrite app_nil_r.
      repeat split; auto. by destruct (save_flag (args s)).
  - exists [], []. unfold loop_run; simpl. rewrite app_nil_r.
    repeat split; auto. by destruct (save_flag (args s)).
Qed.

(** ** The whole run: start-up followed by the loop *)

Lemma startup_trace_quiet E cfg tr :
  Forall (startup_event E cfg) tr →
  Forall (λ ev, quiet ev = true) tr ∧ saves tr = [] ∧
  Forall (λ ev, loop_event ev = false) tr.
Proof.
  induction 1 as [|ev tr Hev _ (IH1 & IH2 & IH3)]; [by repeat split|].
  destruct ev; simpl in Hev; try contradiction;
    (split; [by constructor|]; split; [exact IH2|by constructor]).
Qed.

Lemma args_after_lookup E cfg a k :
  args_after E cfg a → k ≠ "num_spkr" → a !! k = cfg !! k.
Proof.
  intros [->|(ct & ds & _ & _ & _ & ->)] Hk; [done|].
  by rewrite lookup_insert_ne.
Qed.

Lemma args_after_save_flag E cfg a :
  args_after E cfg a → save_flag a = save_flag cfg.
Proof.
  intros H. unfold save_flag. by rewrite (args_after_lookup E cfg a).
Qed.

Lemma args_after_epochs E cfg a :
  args_after E cfg a → epochs_of a = epochs_of cfg.
Proof.
  intros H. unfold epochs_of. by rewrite (args_after_lookup E cfg a).
Qed.

Lemma run_unfold E cfg :
  run E cfg =
  match startup E (init cfg) with
  | (inr dl, s1) => training_loop E dl s1
  | (inl e, s1) => (inl e, s1)
  end.
Proof. reflexivity. Qed.

(** Either start-up raised, and the run ends there; or it returned a loader
    and the run is the training loop started in the state it left. *)
Lemma run_cases E cfg :
  (∃ e s1, startup E (init cfg) = (inl e, s1) ∧ run E cfg = (inl e, s1) ∧
           startup_inv E cfg s1 ∧ startup_exn cfg e) ∨
  (∃ dl s1 t, startup E (init cfg) = (inr dl, s1) ∧
     startup_inv E cfg s1 ∧ startup_done E cfg dl s1 ∧
     loop_run s1 (run E cfg).2 t ∧
     match (run E cfg).1 with
     | inr _ =>
         count_loss t = total_batches E dl (epochs_of cfg) ∧
         saves t = if save_flag cfg
                   then flat_map epoch_checkpoints (epochs_of cfg) else []
     | inl _ =>
         ∃ done, done `prefix_of` epochs_of cfg ∧
           saves t = if save_flag cfg
                     then flat_map epoch_checkpoints done else []
     end).
Proof.
  pose proof (startup_spec E cfg) as Hs. unfold wp in Hs.
  rewrite run_unfold.
  destruct (startup E (init cfg)) as [[e|dl] s1];
    [left; exists e, s1; tauto|].
  right. destruct Hs as [Hinv Hdone]. exists dl, s1.
  pose proof (training_loop_spec E dl s1) as Hl. unfold wp in Hl.
  assert (args_after E cfg (args s1)) as Ha by apply Hinv.
  rewrite (args_after_save_flag _ _ _ Ha), (args_after_epochs _ _ _ Ha) in Hl.
  destruct (training_loop E dl s1) as [[e|[]] s2]; simpl.
  - destruct Hl as (t & done & H1 & H2 & H3). exists t. eauto 10.
  - destruct Hl as (t & H1 & H2 & H3). exists t. eauto 10.
Qed.

(** The trace of every run: start-up events, then loop events. *)
Lemma run_trace_split E cfg :
  ∃ t0 t, trace (run E cfg).2 = t0 ++ t ∧
    Forall (startup_event E cfg) t0 ∧
    Forall (λ ev, loop_event ev = true) t ∧
    log_steps_from 0 t ∧ counter (run E cfg).2 = count_loss t ∧
    args_after E cfg (args (run E cfg).2).
Proof.
  destruct (run_cases E cfg) as
    [(e & s1 & _ & -> & (Hc & _ & Hf & Ha) & _)
    |(dl & s1 & t & _ & (_ & _ & Hf & Ha) & _ & (Hla & Hlt & Hlf & Hll & Hlc) & _)].
  - exists (trace s1), []. simpl. rewrite app_nil_r. by repeat split.
  - exists (trace s1), t. repeat split; auto. by rewrite Hla.
Qed.

Lemma filter_elem {A} (f : A → bool) (l l' : list A) (x : A) :
  List.filter f l = l' → In x l' → x ∈ l.
Proof.
  intros <- Hin. apply list_elem_of_In. by apply List.filter_In in Hin as [? _].
Qed.

Lemma pair_of_fst {A B} (p : A * B) (a : A) : p.1 = a → p = (a, p.2).
Proof. destruct p; simpl; congruence. Qed.

Lemma str_eq_false (v : value) (lit : string) :
  v ≠ VStr lit → str_eq v lit = false.
Proof.
  destruct v; simpl; auto. intros H. apply String.eqb_neq. congruence.
Qed.

Lemma str_eq_true (v : value) (lit : string) :
  str_eq v lit = true ↔ v = VStr lit.
Proof.
  destruct v; simpl; split; try discriminate.
  - intros H. apply String.eqb_eq in H. congruence.
  - intros [= ->]. apply String.eqb_refl.
Qed.

Lemma log_steps_from_lookup c tr i tag v st :
  log_steps_from c tr → tr !! i = Some (EAddScalar tag v st) →
  st = (c + count_loss (take i tr))%nat.
Proof.
  revert c i. induction tr as [|ev tr IH]; intros c i Hl Hi; [done|].
  destruct Hl as [Hev Hl]. destruct i as [|i]; simpl in *.
  - injection Hi as ->. lia.
  - rewrite (IH _ _ Hl Hi). destruct (is_loss_log ev); lia.
Qed.

(** ** Validation of [criterion_type] and [criterion] *)

Ltac validation_leaf :=
  first
    [ congruence
    | left; split;
      [reflexivity|unfold criterion_type_valid; use_lookups; reflexivity]
    | right; left; split;
      [reflexivity|unfold criterion_type_valid; use_lookups; reflexivity]
    | right; right; eexists; split; [|split; [reflexivity|assumption]];
      unfold early_fields; solve [find_event] ].

Lemma startup_unknown_criterion E cfg c :
  cfg !! "criterion" = Some c →
  str_eq c "cosface" = false → str_eq c "psge2e" = false →
  str_eq c "prototypical" = false →
  wp (startup E) (λ _ _, False)
     (λ e _,
        (e = ValueError msg_criterion ∧ criterion_type_valid cfg = true) ∨
        (e = ValueError msg_criterion_type ∧ criterion_type_valid cfg = false) ∨
        (∃ k, k ∈ early_fields ∧ e = AttributeError k ∧ cfg !! k = None))
     (init cfg).
Proof.
  intros Hc H1 H2 H3.
  unfold startup, make_dataset, make_loader, make_modules, resume_checkpoint,
    make_log, make_criterion, make_optimizer, init.
  repeat wp_step.
  all: validation_leaf.
Qed.

(** C4.  If [criterion_type] is neither ['classification'] nor
    ['metriclearning'], the run raises [ValueError] and leaves the initial
    state untouched: the trace is empty, so no dataset was constructed and no
    training step was taken. *)
Theorem C4_unknown_criterion_type_raises E cfg v :
  cfg !! "criterion_type" = Some v →
  v ≠ VStr "classification" → v ≠ VStr "metriclearning" →
  run E cfg = (inl (ValueError msg_criterion_type), init cfg) ∧
  trace (run E cfg).2 = [].
Proof.
  intros Hv H1%str_eq_false H2%str_eq_false.
  assert (run E cfg = (inl (ValueError msg_criterion_type), init cfg)) as Hr.
  { rewrite run_unfold.
    unfold startup, make_dataset, mbind, M_bind, getattr, raise, init; simpl.
    rewrite Hv, H1; simpl. rewrite Hv, H2. reflexivity. }
  by rewrite Hr.
Qed.

Lemma C4_witness :
  run env_two_same (<["criterion_type" := VStr "triplet"]> cfg_classification)
  = (inl (ValueError msg_criterion_type),
     init (<["criterion_type" := VStr "triplet"]> cfg_classification)) ∧
  trace (run env_two_same
           (<["criterion_type" := VStr "triplet"]> cfg_classification)).2 = [].
Proof.
  apply (C4_unknown_criterion_type_raises env_two_same
           (<["criterion_type" := VStr "triplet"]> cfg_classification)
           (VStr "triplet")).
  - reflexivity.
  - discriminate.
  - discriminate.
Defined.

(** C5.  If [criterion] is none of ['cosface'], ['psge2e'], ['prototypical'],
    the run ends in an exception raised during start-up, before any training
    step (no tensor is moved, no forward or backward pass, no optimizer step,
    no scalar logged).  When the namespace holds the fields read before the
    dispatch, that exception is a [ValueError]: the one of the [criterion]
    dispatch if [criterion_type] is valid, the one of the [criterion_type]
    dispatch otherwise. *)
Theorem C5_unknown_criterion_raises E cfg v :
  cfg !! "criterion" = Some v →
  v ≠ VStr "cosface" → v ≠ VStr "psge2e" → v ≠ VStr "prototypical" →
  ∃ e s', run E cfg = (inl e, s') ∧
    Forall (λ ev, is_training_step ev = false) (trace s') ∧
    ((∀ k, k ∈ early_fields → is_Some (cfg !! k)) →
     e = ValueError (if criterion_type_valid cfg
                     then msg_criterion else msg_criterion_type)).
Proof.
  intros Hv H1%str_eq_false H2%str_eq_false H3%str_eq_false.
  pose proof (startup_unknown_criterion E cfg v Hv H1 H2 H3) as Hu.
  unfold wp in Hu.
  destruct (run_cases E cfg) as
    [(e & s1 & Hs & Hr & (_ & _ & Hf & _) & _)
    |(dl & s1 & t & Hs & _ & _)].
  - rewrite Hs in Hu. exists e, s1. split; [exact Hr|]. split.
    + apply startup_trace_quiet in Hf as [Hq _].
      eapply Forall_impl; [exact Hq|]. intros ev. unfold quiet.
      by destruct (is_training_step ev).
    + intros Hwf. destruct Hu as [[-> ->]|[[-> ->]|(k & Hk & -> & Hn)]]; auto.
      apply Hwf in Hk as [? Hk]. congruence.
  - rewrite Hs in Hu. contradiction.
Qed.

Lemma C5_witness :
  ∃ e s',
    run env_two_same (<["criterion" := VStr "softmax"]> cfg_classification)
    = (inl e, s') ∧
    Forall (λ ev, is_training_step ev = false) (trace s') ∧
    e = ValueError msg_criterion.
Proof.
  destruct (C5_unknown_criterion_raises env_two_same
              (<["criterion" := VStr "softmax"]> cfg_classification)
              (VStr "softmax")) as (e & s' & Hr & Hf & He).
  - reflexivity.
  - discriminate.
  - discriminate.
  - discriminate.
  - exists e, s'. split; [exact Hr|]. split; [exact Hf|].
    rewrite He; [reflexivity|].
    intros k Hk. unfold early_fields in Hk.
    repeat (apply elem_of_cons in Hk as [->|Hk]; [eexists; reflexivity|]).
    inversion Hk.
Defined.

(** ** Start-up events and loop events *)

Lemma loop_event_not_startup E cfg ev :
  loop_event ev = true → startup_event E cfg ev → False.
Proof. destruct ev; simpl; intros H1 H2; try discriminate; contradiction. Qed.

(** ** Resuming from a checkpoint *)

(** C9.  The only state ever loaded is the model's, from [model_path], and
    only when that path is set; a run whose start-up completes has
    constructed a criterion and an optimizer, and has loaded the model state
    whenever [model_path] is set. *)
Theorem C9_resume_restores_model_only E cfg :
  (∀ c p d, ELoadStateDict c p d ∈ trace (run E cfg).2 →
     c = Model ∧ cfg !! "model_path" = Some p ∧ truthy p = true) ∧
  (∀ dl s1, startup E (init cfg) = (inr dl, s1) →
     (∃ k a d, ECriterionCtor k a d ∈ trace (run E cfg).2) ∧
     (∃ lr clr, EAdam lr clr ∈ trace (run E cfg).2) ∧
     (∀ p, cfg !! "model_path" = Some p → truthy p = true →
           ∃ d, ELoadStateDict Model p d ∈ trace (run E cfg).2)).
Proof.
  split.
  - intros c p d Hin.
    destruct (run_trace_split E cfg) as (t0 & t & Ht & Hf0 & Hf & _).
    rewrite Ht in Hin. apply elem_of_app in Hin as [Hin|Hin].
    + rewrite Forall_forall in Hf0. exact (Hf0 _ Hin).
    + rewrite Forall_forall in Hf. apply Hf in Hin. discriminate.
  - intros dl s1 Hs.
    destruct (run_cases E cfg) as
      [(e & s1' & Hs' & _)
      |(dl' & s1' & t & Hs' & _ & (_ & _ & Hc & Ho & Hl) & (_ & Ht & _) & _)];
      [congruence|].
    rewrite Ht. split; [|split].
    + destruct Hc as (k & a & d & Hin). exists k, a, d.
      apply elem_of_app. by left.
    + destruct Ho as (lr & clr & Hin). exists lr, clr.
      apply elem_of_app. by left.
    + intros p Hp Htr. destruct (Hl p Hp Htr) as [d Hin]. exists d.
      apply elem_of_app. by left.
Qed.

Lemma C9_witness :
  (∃ k a d, ECriterionCtor k a d ∈ trace (run env_two_same cfg_resume).2) ∧
  (∃ lr clr, EAdam lr clr ∈ trace (run env_two_same cfg_resume).2) ∧
  (∃ d, ELoadStateDict Model (VStr "models/model_03.pt") d
          ∈ trace (run env_two_same cfg_resume).2).
Proof.
  destruct (C9_resume_restores_model_only env_two_same cfg_resume) as [_ H].
  destruct (H (Loader (Dataset ClassificationVCDS
                         [VStr "train.csv"; VInt 400; VInt 160; VInt 200])
                      (VInt 2))
              (startup env_two_same (init cfg_resume)).2)
    as (Hc & Ho & Hl).
  - apply pair_of_fst. vm_compute. reflexivity.
  - split; [exact Hc|]. split; [exact Ho|].
    apply Hl; reflexivity.
Defined.

(** ** The speaker count given to the criterion *)

(** C10.  Whenever a criterion is constructed, its speaker-count argument
    is, in classification mode, the length of the dataset just constructed
    (whatever [num_spkr] the parser supplied), and in metric-learning mode
    the parsed [num_spkr], the namespace never being assigned to. *)
Theorem C10_num_spkr_source E cfg k a d :
  ECriterionCtor k a d ∈ trace (run E cfg).2 →
  ∃ ns, a !! 1%nat = Some ns ∧
    (cfg !! "criterion_type" = Some (VStr "classification") →
     ∃ ds, classification_dataset cfg = Some ds ∧
           ns = VInt (Z.of_nat (ds_len E ds))) ∧
    (cfg !! "criterion_type" = Some (VStr "metriclearning") →
     cfg !! "num_spkr" = Some ns ∧ args (run E cfg).2 = cfg).
Proof.
  intros Hin.
  destruct (run_trace_split E cfg) as (t0 & t & Ht & Hf0 & Hf & _ & _ & Ha).
  rewrite Ht in Hin. apply elem_of_app in Hin as [Hin|Hin].
  - rewrite Forall_forall in Hf0. apply Hf0 in Hin.
    destruct Hin as (ns & ct & Hns & Hct & Hif).
    exists ns. split; [exact Hns|]. split.
    + intros Hc. rewrite Hc in Hct. injection Hct as <-. exact Hif.
    + intros Hc. rewrite Hc in Hct. injection Hct as <-. split; [exact Hif|].
      destruct Ha as [Ha|(ct & ds & Hct & Htrue & _)]; [exact Ha|].
      rewrite Hc in Hct. injection Hct as <-. discriminate.
  - rewrite Forall_forall in Hf. apply Hf in Hin. discriminate.
Qed.

Lemma C10_witness :
  cfg_classification !! "num_spkr" = Some (VInt 5) ∧
  ECriterionCtor CosFace [VInt 4; VInt 3; VFloat (1 # 5); VFloat 30] Cpu
    ∈ trace (run env_two_same cfg_classification).2 ∧
  ∃ ns, [VInt 4; VInt 3; VFloat (1 # 5); VFloat 30] !! 1%nat = Some ns ∧
    (cfg_classification !! "criterion_type" = Some (VStr "classification") →
     ∃ ds, classification_dataset cfg_classification = Some ds ∧
           ns = VInt (Z.of_nat (ds_len env_two_same ds))) ∧
    (cfg_classification !! "criterion_type" = Some (VStr "metriclearning") →
     cfg_classification !! "num_spkr" = Some ns ∧
     args (run env_two_same cfg_classification).2 = cfg_classification).
Proof.
  assert (ECriterionCtor CosFace [VInt 4; VInt 3; VFloat (1 # 5); VFloat 30] Cpu
            ∈ trace (run env_two_same cfg_classification).2) as Hin.
  { apply (filter_elem is_criterion_ctor _
             [ECriterionCtor CosFace
                [VInt 4; VInt 3; VFloat (1 # 5); VFloat 30] Cpu]).
    - vm_compute. reflexivity.
    - left. reflexivity. }
  split; [reflexivity|]. split; [exact Hin|].
  exact (C10_num_spkr_source env_two_same cfg_classification _ _ _ Hin).
Defined.

(** ** The step counter *)

Lemma run_log_steps E cfg :
  log_steps_from 0 (trace (run E cfg).2) ∧
  counter (run E cfg).2 = count_loss (trace (run E cfg).2).
Proof.
  destruct (run_trace_split E cfg) as (t0 & t & -> & Hf0 & _ & Hl & Hc & _).
  apply startup_trace_quiet in Hf0 as (Hq & _ & _).
  destruct (quiet_log_steps 0 t0 Hq) as [Hl0 Hc0].
  split.
  - apply log_steps_from_app. by rewrite Hc0.
  - by rewrite count_loss_app, Hc0.
Qed.

(** C6.  The counter starts at 0 and at the end of every run equals the
    number of batches completed (one ['loss'] scalar is logged per completed
    batch, in any epoch); every scalar in the trace was logged under the
    number of batches completed before it, so the scalars of the k-th batch
    carry step k-1; and when the run completes, the counter equals the total
    number of batches the loader yielded over all epochs. *)
Theorem C6_step_counter E cfg :
  counter (init cfg) = 0%nat ∧
  counter (run E cfg).2 = count_loss (trace (run E cfg).2) ∧
  (∀ i tag v st,
     trace (run E cfg).2 !! i = Some (EAddScalar tag v st) →
     st = count_loss (take i (trace (run E cfg).2))) ∧
  (∀ dl s1, startup E (init cfg) = (inr dl, s1) → (run E cfg).1 = inr tt →
     counter (run E cfg).2 = total_batches E dl (epochs_of cfg)).
Proof.
  destruct (run_log_steps E cfg) as [Hl Hc].
  split; [reflexivity|]. split; [exact Hc|]. split.
  - intros i tag v st Hi.
    by rewrite (log_steps_from_lookup _ _ _ _ _ _ Hl Hi).
  - intros dl s1 Hs Hok.
    destruct (run_cases E cfg) as
      [(e & s1' & _ & Hr & _)
      |(dl' & s1' & t & Hs' & _ & _ & (_ & _ & _ & _ & Hct) & Hres)].
    + rewrite Hr in Hok. discriminate.
    + rewrite Hok in Hres. destruct Hres as [Htot _].
      rewrite Hs in Hs'. injection Hs' as <- <-. by rewrite Hct.
Qed.

Lemma C6_witness :
  counter (run env_two_same cfg_classification).2 = 1%nat ∧
  total_batches env_two_same
    (Loader (Dataset ClassificationVCDS
               [VStr "train.csv"; VInt 400; VInt 160; VInt 200]) (VInt 2))
    (epochs_of cfg_classification) = 1%nat.
Proof.
  destruct (C6_step_counter env_two_same cfg_classification)
    as (_ & _ & _ & H).
  split; [|reflexivity].
  rewrite (H (Loader (Dataset ClassificationVCDS
                        [VStr "train.csv"; VInt 400; VInt 160; VInt 200])
                     (VInt 2))
             (startup env_two_same (init cfg_classification)).2).
  - reflexivity.
  - apply pair_of_fst. vm_compute. reflexivity.
  - vm_compute. reflexivity.
Defined.

(** ** The order of steps within a batch *)

Section Classification.
Context (E : env).

Lemma batch_body_classification b s ct :
  args s !! "criterion_type" = Some ct →
  str_eq ct "classification" = true →
  size0 (batch_y E (counter s) b) ≠ 0%nat →
  wp (batch_body E b)
     (λ _ s', args s' = args s ∧ counter s' = S (counter s) ∧
              trace s' = trace s ++ batch_events E (counter s) b)
     (λ _ _, False) s.
Proof.
  intros Hct Hc Hy. unfold batch_y in Hy. unfold batch_body, score_batch.
  repeat wp_step; try congruence.
  split; [reflexivity|]. split; [lia|].
  rewrite <- !app_assoc. cbn [app].
  unfold batch_events, batch_accuracy, batch_loss, batch_y.
  rewrite Hp, Hb0. reflexivity.
Qed.

Lemma batches_classification bs s ct :
  args s !! "criterion_type" = Some ct →
  str_eq ct "classification" = true →
  (∀ c b, b ∈ bs → size0 (batch_y E c b) ≠ 0%nat) →
  wp (forM_ bs (batch_body E))
     (λ _ s', args s' = args s ∧
              counter s' = (counter s + length bs)%nat ∧
              trace s' = trace s ++ batches_events E (counter s) bs)
     (λ _ _, False) s.
Proof.
  revert s. induction bs as [|b bs IH]; intros s Hct Hc Hy; simpl.
  - apply wp_ret. rewrite app_nil_r, Nat.add_0_r. auto.
  - apply wp_bind.
    eapply wp_mono;
      [| |apply (batch_body_classification b s ct Hct Hc); apply Hy; by left];
      [|done].
    intros _ s1 (Ha & Hn & Ht). simpl.
    eapply wp_mono; [| |apply IH]; [|done|by rewrite Ha|done|].
    + intros _ s2 (Ha2 & Hn2 & Ht2). simpl.
      split; [congruence|]. split; [lia|].
      by rewrite Ht2, Ht, Hn, <- app_assoc.
    + intros c b' Hb'. apply Hy. by right.
Qed.

Context (dl : loader).
Hypothesis model_nonempty :
  ∀ c e b, b ∈ dl_iter E (dl_ds dl) (dl_batch_size dl) e →
           size0 (batch_y E c b) ≠ 0%nat.

Lemma epochs_classification eps s ct sv :
  args s !! "criterion_type" = Some ct →
  str_eq ct "classification" = true →
  args s !! "save_model" = Some sv →
  wp (forM_ eps (epoch_body E dl))
     (λ _ s', args s' = args s ∧
              trace s' = trace s ++ epochs_events E dl (truthy sv) (counter s) eps)
     (λ _ _, False) s.
Proof.
  revert s. induction eps as [|e eps IH]; intros s Hct Hc Hsv; simpl.
  - apply wp_ret. by rewrite app_nil_r.
  - apply wp_bind. unfold epoch_body at 1. apply wp_bind. wp_step.
    apply wp_bind.
    eapply wp_mono; [| |apply (batches_classification _ _ ct)];
      [|done|done|done|by eauto].
    intros _ s1 (Ha & Hn & Ht). simpl in Ha, Hn, Ht |- *.
    unfold save_checkpoint. apply wp_bind, wp_getattr. rewrite Ha, Hsv.
    destruct (truthy sv) eqn:Hflag; repeat wp_step.
    + eapply wp_mono; [| |apply IH; simpl; congruence]; [|done].
      intros _ s2 (Ha2 & Ht2). simpl in Ha2, Ht2.
      split; [congruence|].
      rewrite Ht2, Ht, Hn, <- !app_assoc. reflexivity.
    + eapply wp_mono; [| |apply IH; simpl; congruence]; [|done].
      intros _ s2 (Ha2 & Ht2). simpl in Ha2, Ht2.
      split; [congruence|].
      rewrite Ht2, Ht, Hn, <- !app_assoc. reflexivity.
Qed.

Lemma training_loop_classification s ct sv nv eps :
  args s !! "criterion_type" = Some ct →
  str_eq ct "classification" = true →
  args s !! "save_model" = Some sv →
  args s !! "num_epochs" = Some nv → range_list nv = Some eps →
  wp (training_loop E dl)
     (λ _ s', trace s' = trace s ++ epochs_events E dl (truthy sv) 0 eps)
     (λ _ _, False) s.
Proof.
  intros Hct Hc Hsv Hnv Heps. unfold training_loop.
  do 4 wp_step. apply wp_bind, wp_py_range. rewrite Heps.
  eapply wp_mono; [| |by apply (epochs_classification eps _ ct sv)];
    [|done].
  by intros _ s' [_ Ht].
Qed.
End Classification.

(** C8, as stated, fails: in a classification run of one epoch with one
    batch the steps are not taken in the order the contract lists.  The
    target is moved to the device after feature extraction, and the accuracy
    is logged before the gradients are zeroed, not after the optimizer
    step. *)
Lemma C8_order_differs :
  step_order (trace (run env_two_same cfg_classification).2)
    = [KMove; KFeature; KMove; KForward; KLoss; KLog;
       KZeroGrad; KBackward; KOptStep; KLog] ∧
  step_order (trace (run env_two_same cfg_classification).2)
    ≠ claimed_step_order.
Proof.
  assert (step_order (trace (run env_two_same cfg_classification).2)
          = [KMove; KFeature; KMove; KForward; KLoss; KLog;
             KZeroGrad; KBackward; KOptStep; KLog]) as H
    by (vm_compute; reflexivity).
  split; [exact H|]. rewrite H. discriminate.
Qed.

(** C8, amended.  In classification mode, when start-up has returned the
    loader (built with [shuffle=True] over the dataset) and the model never
    returns an empty output, the run completes and its trace after start-up
    is, for each epoch of [range(num_epochs)] in order: the epoch banner;
    then for each batch the loader yields, in order: move [x] to the device,
    extract features, move [target] to the device, forward pass, criterion
    (scores and loss), log ['acc'] under the counter, zero the gradients,
    backpropagate, step the optimizer, log ['loss'] under the same counter
    value (the counter then advances by one); then the three checkpoint
    writes when [save_model] is set. *)
Theorem C8_classification_step_order E cfg dl s1 nv eps sv :
  cfg !! "criterion_type" = Some (VStr "classification") →
  cfg !! "num_epochs" = Some nv → range_list nv = Some eps →
  cfg !! "save_model" = Some sv →
  (∀ c e b, b ∈ dl_iter E (dl_ds dl) (dl_batch_size dl) e →
            size0 (batch_y E c b) ≠ 0%nat) →
  startup E (init cfg) = (inr dl, s1) →
  (∃ nw, EDataLoader (dl_ds dl) (dl_batch_size dl) true nw ∈ trace s1) ∧
  (run E cfg).1 = inr tt ∧
  trace (run E cfg).2 = trace s1 ++ epochs_events E dl (truthy sv) 0 eps.
Proof.
  intros Hct Hnv Heps Hsv Hy Hs.
  pose proof (startup_spec E cfg) as Hsp. unfold wp in Hsp. rewrite Hs in Hsp.
  destruct Hsp as [(_ & _ & _ & Ha) (Hdl & _)].
  split; [exact Hdl|].
  rewrite run_unfold, Hs.
  pose proof (training_loop_classification E dl Hy s1
                (VStr "classification") sv nv eps) as Hl.
  unfold wp in Hl.
  destruct (training_loop E dl s1) as [[e|[]] s2]; simpl.
  - exfalso. apply Hl; try done;
      by rewrite (args_after_lookup E cfg (args s1)).
  - split; [reflexivity|]. apply Hl; try done;
      by rewrite (args_after_lookup E cfg (args s1)).
Qed.

Example epochs_events_two_same :
  epochs_events env_two_same loader_two_same true 0 [0%nat]
  = EPrint "--------------------epoch: 01--------------------"
    :: batch_events env_two_same 0 two_same ++ epoch_checkpoints 0.
Proof. reflexivity. Qed.

Lemma C8_witness :
  (∃ nw, EDataLoader (dl_ds loader_two_same) (dl_batch_size loader_two_same)
           true nw
         ∈ trace (startup env_two_same (init cfg_classification)).2) ∧
  (run env_two_same cfg_classification).1 = inr tt ∧
  trace (run env_two_same cfg_classification).2
  = trace (startup env_two_same (init cfg_classification)).2
    ++ epochs_events env_two_same loader_two_same (truthy (VBool true)) 0
         [0%nat].
Proof.
  apply (C8_classification_step_order env_two_same cfg_classification
           loader_two_same
           (startup env_two_same (init cfg_classification)).2
           (VInt 1) [0%nat] (VBool true)).
  - reflexivity.
  - reflexivity.
  - reflexivity.
  - reflexivity.
  - intros c e b ->%list_elem_of_singleton. discriminate.
  - apply pair_of_fst. vm_compute. reflexivity.
Defined.

(** ** The metric-learning branch *)

(** In any mode but classification the branch of lines 102-113 binds
    nothing: while [loss] is unbound, a batch records the two device moves,
    the feature extraction, the forward pass and [zero_grad], then stops at
    the evaluation of [loss] in [loss.backward()]. *)
Lemma batch_body_metriclearning E b s ct :
  args s !! "criterion_type" = Some ct →
  str_eq ct "classification" = false →
  loss s = None →
  wp (batch_body E b) (λ _ _, False)
     (λ e s', e = NameError "loss" ∧ loss s' = None ∧
              counter s' = counter s ∧
              trace s' = trace s ++ [EToDevice TX; EFeatureExtract;
                                     EToDevice TTarget; EForward; EZeroGrad])
     s.
Proof.
  intros Hct Hc Hl. unfold batch_body, score_batch.
  repeat wp_step; try congruence.
  all: rewrite <- !app_assoc; auto.
Qed.

(** C1, evaluated.  A metric-learning run of one epoch with one batch: no
    loss is computed (no criterion call is recorded and [loss] stays
    unbound), and after [zero_grad] the run ends in [NameError] on the name
    [loss]; nothing is backpropagated, no optimizer step is taken, and the
    counter stays at 0. *)
Theorem C1_metriclearning_loss_unbound :
  (run env_two_same cfg_metriclearning).1 = inl (NameError "loss") ∧
  List.filter is_training_step (trace (run env_two_same cfg_metriclearning).2)
    = [EToDevice TX; EFeatureExtract; EToDevice TTarget; EForward; EZeroGrad] ∧
  loss (run env_two_same cfg_metriclearning).2 = None ∧
  counter (run env_two_same cfg_metriclearning).2 = 0%nat.
Proof. repeat split; vm_compute; reflexivity. Qed.

(** ** What the accuracy computation counts *)

Lemma matching_top1_le preds target :
  (matching_top1 preds target ≤ length preds)%nat.
Proof.
  unfold matching_top1. etrans; [apply length_filter|].
  rewrite length_zip_with. lia.
Qed.

Lemma broadcast_size scores target :
  length (concat (eq_broadcast (topk1_indices scores) target))
  = (length scores * length target)%nat.
Proof.
  unfold eq_broadcast, topk1_indices.
  induction scores as [|row scores IH]; [done|].
  cbn [map concat]. by rewrite List.length_app, List.length_map, IH.
Qed.

(** What the code counts: pairs (i, j) with [preds[i] == target[j]], up to
    the product of the two sizes. *)
Lemma sum_item_broadcast_le scores target :
  (sum_item (eq_broadcast (topk1_indices scores) target)
   ≤ length scores * length target)%nat.
Proof.
  unfold sum_item. etrans; [apply length_filter|]. by rewrite broadcast_size.
Qed.

(** A batch that repeats a label.  With two utterances of the same speaker,
    both predicted correctly, the rows that match their own target are 2 of
    2, but the comparison of line 108 pairs every prediction with every
    target: it counts 4, and the scalar logged under ['acc'] is 4/2 = 2. *)
Lemma repeated_label_accuracy :
  List.filter is_acc_log (trace (run env_two_same cfg_classification).2)
    = [EAddScalar "acc" (4 # 2) 0] ∧
  ¬ (4 # 2 <= 1)%Q ∧
  matching_top1 (topk1_indices [[1; 0]; [1; 0]]%Q) (batch_target two_same)
    = 2%nat.
Proof.
  split; [vm_compute; reflexivity|]. split; [|vm_compute; reflexivity].
  unfold Qle; simpl. lia.
Qed.

(** * Further properties *)

(** ** What start-up builds *)

Ltac built_atom :=
  rewrite ?lookup_insert_eq, ?lookup_insert_ne by done;
  first
    [ eassumption
    | reflexivity
    | discriminate
    | cbn [read_fields]; rewrite ?lookup_insert_eq, ?lookup_insert_ne by done;
      use_lookups; reflexivity ].

Ltac built_events :=
  repeat first
    [ apply List.Forall_nil
    | apply List.Forall_cons;
      [ unfold built;
        cbn [ds_kind ds_args dataset_name dataset_fields ctor_name ctor_fields];
        repeat split;
        try (let Hkind := fresh in intros Hkind; try discriminate Hkind);
        built_atom | ] ].

Ltac str_eq_subst :=
  repeat match goal with
         | H : str_eq ?v _ = true |- _ => apply str_eq_true in H; subst v
         end.

Lemma startup_built E cfg :
  wp (startup E)
     (λ dl s, startup_shape E dl s ∧ Forall (built E (args s)) (trace s))
     (λ _ s, Forall (built E (args s)) (trace s))
     (init cfg).
Proof.
  unfold startup, make_dataset, make_loader, make_modules, resume_checkpoint,
    make_log, make_criterion, make_optimizer, init.
  repeat wp_step.
  all: str_eq_subst; cbn [app].
  all: try (split;
            [unfold startup_shape; wp_simpl; cbn [dl_ds dl_batch_size];
             eexists _, _, _, _, _, _, _; split;
             [built_atom
             |unfold startup_calls;
              repeat match goal with H : truthy _ = _ |- _ => rewrite H end;
              reflexivity]|]).
  all: wp_simpl.
  all: built_events.
Qed.

Lemma args_after_None E cfg a k :
  args_after E cfg a → a !! k = None → cfg !! k = None.
Proof.
  intros [->|(ct & ds & _ & _ & _ & ->)] Hk; [done|].
  by apply lookup_insert_None in Hk as [? _].
Qed.

Lemma read_fields_frame (a b : gmap string value) fs :
  (∀ f, f ∈ fs → a !! f = b !! f) → read_fields a fs = read_fields b fs.
Proof.
  induction fs as [|f fs IH]; intros H; simpl; [done|].
  rewrite (H f) by left. rewrite IH; [done|]. intros g Hg. apply H. by right.
Qed.

(** Every run: start-up calls built from the final namespace, then loop
    events. *)
Lemma run_built E cfg :
  ∃ t0 t, trace (run E cfg).2 = t0 ++ t ∧
    Forall (built E (args (run E cfg).2)) t0 ∧
    Forall (λ ev, loop_event ev = true) t ∧
    args_after E cfg (args (run E cfg).2) ∧
    ∀ dl s1, startup E (init cfg) = (inr dl, s1) →
      t0 = trace s1 ∧ args s1 = args (run E cfg).2 ∧ startup_shape E dl s1.
Proof.
  pose proof (startup_built E cfg) as Hb. unfold wp in Hb.
  pose proof (startup_spec E cfg) as Hs. unfold wp in Hs.
  rewrite run_unfold.
  destruct (startup E (init cfg)) as [[e|dl] s1]; simpl.
  - exists (trace s1), []. rewrite app_nil_r.
    destruct Hs as [(_ & _ & _ & Ha) _].
    split; [done|]. split; [done|]. split; [constructor|]. split; [done|].
    intros dl' s1' [=].
  - destruct Hb as [Hshape Hb]. destruct Hs as [(_ & _ & _ & Ha) _].
    pose proof (training_loop_spec E dl s1) as Hl. unfold wp in Hl.
    assert (∃ t, args (training_loop E dl s1).2 = args s1 ∧
                 trace (training_loop E dl s1).2 = trace s1 ++ t ∧
                 Forall (λ ev, loop_event ev = true) t) as (t & Ha2 & Ht & Hf).
    { destruct (training_loop E dl s1) as [[e|[]] s2]; simpl.
      - destruct Hl as (t & done & (Ha2 & Ht & Hf & _) & _). eauto.
      - destruct Hl as (t & (Ha2 & Ht & Hf & _) & _). eauto. }
    exists (trace s1), t. rewrite Ha2.
    split; [done|]. split; [done|]. split; [done|]. split; [done|].
    by intros dl' s1' [= <- <-].
Qed.

Lemma run_built_elem E cfg ev :
  ev ∈ trace (run E cfg).2 →
  built E (args (run E cfg).2) ev ∨ loop_event ev = true.
Proof.
  destruct (run_built E cfg) as (t0 & t & -> & Hb & Hl & _).
  intros [Hin|Hin]%elem_of_app.
  - left. rewrite Forall_forall in Hb. auto.
  - right. rewrite Forall_forall in Hl. auto.
Qed.

Lemma run_built_members E cfg dl s1 :
  startup E (init cfg) = (inr dl, s1) →
  EDataset (dl_ds dl) ∈ trace (run E cfg).2 ∧
  ETransform (args (run E cfg).2) (select_device E) ∈ trace (run E cfg).2 ∧
  EModelCtor (args (run E cfg).2) (select_device E) ∈ trace (run E cfg).2.
Proof.
  intros Hs. destruct (run_built E cfg) as (t0 & t & -> & _ & _ & _ & H).
  destruct (H dl s1 Hs) as (-> & <- & nw & mp & ld & k & cargs & lr & clr & _ & ->).
  unfold startup_calls. repeat split; apply elem_of_app; left; find_event.
Qed.

(** X1.  When start-up returns, the trace of the run begins with exactly
    these calls, each made once and in this order: the dataset, the data
    loader over it (with [shuffle=True]), the feature extractor, the model,
    the load of the model state if and only if [model_path] is truthy, the
    summary writer, the criterion, the optimizer; everything recorded after
    them is a loop event. *)
Theorem startup_call_order E cfg dl s1 :
  startup E (init cfg) = (inr dl, s1) →
  ∃ nw mp ld k cargs lr clr t,
    cfg !! "model_path" = Some mp ∧
    trace (run E cfg).2
    = startup_calls E (args (run E cfg).2) (dl_ds dl) (dl_batch_size dl)
        nw mp ld k cargs lr clr ++ t ∧
    Forall (λ ev, loop_event ev = true) t.
Proof.
  intros Hs. destruct (run_built E cfg) as (t0 & t & Ht & _ & Hl & Ha & H).
  destruct (H dl s1 Hs) as (-> & Ha1 & nw & mp & ld & k & cargs & lr & clr & Hmp & Hsh).
  exists nw, mp, ld, k, cargs, lr, clr, t.
  split; [|split; [|exact Hl]].
  - by rewrite <- (args_after_lookup E cfg (args s1)); [|rewrite Ha1|].
  - by rewrite Ht, Hsh, Ha1.
Qed.

Lemma startup_call_order_witness :
  ∃ nw mp ld k cargs lr clr t,
    cfg_classification !! "model_path" = Some mp ∧
    trace (run env_two_same cfg_classification).2
    = startup_calls env_two_same (args (run env_two_same cfg_classification).2)
        (dl_ds loader_two_same) (dl_batch_size loader_two_same)
        nw mp ld k cargs lr clr ++ t ∧
    Forall (λ ev, loop_event ev = true) t.
Proof.
  apply (startup_call_order env_two_same cfg_classification loader_two_same
           (startup env_two_same (init cfg_classification)).2).
  apply pair_of_fst. vm_compute. reflexivity.
Defined.

(** X2.  The keyword arguments the feature extractor and the model are
    constructed with are the namespace the run ends with: [kwargs] aliases
    [args], so in classification mode they carry the length of the dataset
    as [num_spkr], not the parsed value. *)
Theorem kwargs_is_namespace E cfg kw d :
  ETransform kw d ∈ trace (run E cfg).2 ∨
  EModelCtor kw d ∈ trace (run E cfg).2 →
  kw = args (run E cfg).2 ∧
  ∀ ds, EDataset ds ∈ trace (run E cfg).2 →
        ds_kind ds = ClassificationVCDS →
        kw !! "num_spkr" = Some (VInt (Z.of_nat (ds_len E ds))).
Proof.
  intros Hin.
  assert (kw = args (run E cfg).2) as ->.
  { destruct Hin as [Hin|Hin]; apply run_built_elem in Hin as [[? _]|?];
      done. }
  split; [done|]. intros ds Hds Hk.
  apply run_built_elem in Hds as [(_ & _ & H)|?]; [auto|done].
Qed.

Lemma kwargs_is_namespace_witness :
  args (run env_two_same cfg_classification).2
  = args (run env_two_same cfg_classification).2 ∧
  ∀ ds, EDataset ds ∈ trace (run env_two_same cfg_classification).2 →
        ds_kind ds = ClassificationVCDS →
        args (run env_two_same cfg_classification).2 !! "num_spkr"
        = Some (VInt (Z.of_nat (ds_len env_two_same ds))).
Proof.
  apply (kwargs_is_namespace env_two_same cfg_classification _
           (select_device env_two_same)).
  left.
  apply (run_built_members env_two_same cfg_classification loader_two_same
           (startup env_two_same (init cfg_classification)).2).
  apply pair_of_fst. vm_compute. reflexivity.
Defined.

(** X3.  A criterion is only ever constructed as the variant [criterion]
    names, from the fields of that variant: CosFace from
    (repr_dim, num_spkr, m, s), PSGE2E from
    (repr_dim, num_spkr, init_m, init_s), Prototypical from
    (repr_dim, num_spkr), read from the namespace as it stands after the
    dataset was built. *)
Theorem criterion_dispatch E cfg k cargs d :
  ECriterionCtor k cargs d ∈ trace (run E cfg).2 →
  cfg !! "criterion" = Some (VStr (ctor_name k)) ∧
  read_fields (args (run E cfg).2) (ctor_fields k) = Some cargs.
Proof.
  intros Hin. destruct (run_built E cfg) as (_ & _ & _ & _ & _ & Ha & _).
  apply run_built_elem in Hin as [(Hc & Hf & _)|?]; [|done].
  split; [|exact Hf].
  by rewrite <- (args_after_lookup E cfg (args (run E cfg).2)).
Qed.

Lemma criterion_dispatch_witness :
  cfg_classification !! "criterion" = Some (VStr (ctor_name CosFace)) ∧
  read_fields (args (run env_two_same cfg_classification).2)
    (ctor_fields CosFace)
  = Some [VInt 4; VInt 3; VFloat (1 # 5); VFloat 30].
Proof.
  apply (criterion_dispatch env_two_same cfg_classification CosFace _ Cpu).
  apply (filter_elem is_criterion_ctor _
           [ECriterionCtor CosFace
              [VInt 4; VInt 3; VFloat (1 # 5); VFloat 30] Cpu]).
  - vm_compute. reflexivity.
  - left. reflexivity.
Defined.

(** X4.  Every object the run places on or loads to a device (feature
    extractor, model, loaded model state, criterion) gets the same one: the
    accelerator if it is available, the CPU otherwise. *)
Theorem single_device E cfg ev d :
  ev ∈ trace (run E cfg).2 → event_device ev = Some d →
  d = if cuda_is_available E then Cuda else Cpu.
Proof.
  intros Hin Hd. apply run_built_elem in Hin as [Hb|Hl].
  - destruct ev; simpl in Hd, Hb; try discriminate; injection Hd as <-;
      tauto.
  - destruct ev; simpl in Hd, Hl; discriminate.
Qed.

Lemma single_device_witness :
  Cpu = if cuda_is_available env_two_same then Cuda else Cpu.
Proof.
  apply (single_device env_two_same cfg_classification
           (ECriterionCtor CosFace
              [VInt 4; VInt 3; VFloat (1 # 5); VFloat 30] Cpu) Cpu).
  - apply (filter_elem is_criterion_ctor _
             [ECriterionCtor CosFace
                [VInt 4; VInt 3; VFloat (1 # 5); VFloat 30] Cpu]).
    + vm_compute. reflexivity.
    + left. reflexivity.
  - reflexivity.
Defined.

Lemma dataset_fields_frame k f : f ∈ dataset_fields k → f ≠ "num_spkr".
Proof.
  destruct k; simpl; intros Hf;
    repeat (apply elem_of_cons in Hf as [->|Hf]; [discriminate|]);
    inversion Hf.
Qed.

(** X5.  The only datasets ever constructed are ClassificationVCDS, when
    [criterion_type] is ['classification'], from
    (csv_path, win_length, hop_length, num_frames), and MetricLearningVCDS,
    when it is ['metriclearning'], from the same fields and [spk_samples];
    the data loader is always built with [shuffle=True], the parsed
    [batch_size] and the parsed [num_workers]. *)
Theorem dataset_dispatch E cfg :
  (∀ ds, EDataset ds ∈ trace (run E cfg).2 →
     cfg !! "criterion_type" = Some (VStr (dataset_name (ds_kind ds))) ∧
     read_fields cfg (dataset_fields (ds_kind ds)) = Some (ds_args ds)) ∧
  (∀ ds bs shuffle nw, EDataLoader ds bs shuffle nw ∈ trace (run E cfg).2 →
     shuffle = true ∧ cfg !! "batch_size" = Some bs ∧
     cfg !! "num_workers" = Some nw).
Proof.
  destruct (run_built E cfg) as (_ & _ & _ & _ & _ & Ha & _).
  split.
  - intros ds Hin. apply run_built_elem in Hin as [(Hc & Hf & _)|?]; [|done].
    split.
    + by rewrite <- (args_after_lookup E cfg (args (run E cfg).2)).
    + rewrite <- Hf. symmetry. apply read_fields_frame. intros f Hf'.
      apply (args_after_lookup E); [done|]. by eapply dataset_fields_frame.
  - intros ds bs sh nw Hin.
    apply run_built_elem in Hin as [(Hsh & Hb & Hn)|?]; [|done].
    split; [done|].
    by rewrite <- !(args_after_lookup E cfg (args (run E cfg).2)).
Qed.

Lemma dataset_dispatch_witness :
  cfg_classification !! "criterion_type"
    = Some (VStr (dataset_name (ds_kind (dl_ds loader_two_same)))) ∧
  read_fields cfg_classification
    (dataset_fields (ds_kind (dl_ds loader_two_same)))
    = Some (ds_args (dl_ds loader_two_same)).
Proof.
  destruct (dataset_dispatch env_two_same cfg_classification) as [H _].
  apply H.
  apply (run_built_members env_two_same cfg_classification loader_two_same
           (startup env_two_same (init cfg_classification)).2).
  apply pair_of_fst. vm_compute. reflexivity.
Defined.

(** ** Edge cases of the configuration *)

(** X6.  With [num_epochs] zero or negative the loop body never runs: once
    start-up has returned the run completes at once, records nothing more
    (no banner, no training step, no checkpoint) and leaves the counter
    at 0. *)
Theorem no_epochs_no_training E cfg dl s1 z :
  startup E (init cfg) = (inr dl, s1) →
  cfg !! "num_epochs" = Some (VInt z) → (z ≤ 0)%Z →
  (run E cfg).1 = inr tt ∧ trace (run E cfg).2 = trace s1 ∧
  counter (run E cfg).2 = 0%nat.
Proof.
  intros Hs Hn Hz.
  pose proof (startup_spec E cfg) as Hsp. unfold wp in Hsp. rewrite Hs in Hsp.
  destruct Hsp as [(_ & _ & _ & Ha) _].
  rewrite <- (args_after_lookup E cfg (args s1)) in Hn by done.
  rewrite run_unfold, Hs.
  unfold training_loop, mbind, M_bind, set_counter, getattr; simpl.
  rewrite Hn; simpl. replace (Z.to_nat z) with 0%nat by lia. done.
Qed.

Lemma no_epochs_no_training_witness :
  (run env_two_same cfg_no_epochs).1 = inr tt ∧
  trace (run env_two_same cfg_no_epochs).2
  = trace (startup env_two_same (init cfg_no_epochs)).2 ∧
  counter (run env_two_same cfg_no_epochs).2 = 0%nat.
Proof.
  apply (no_epochs_no_training env_two_same cfg_no_epochs loader_two_same
           (startup env_two_same (init cfg_no_epochs)).2 0).
  - apply pair_of_fst. vm_compute. reflexivity.
  - reflexivity.
  - lia.
Defined.

Lemma ctor_fields_num_spkr k : "num_spkr" ∈ ctor_fields k.
Proof. destruct k; simpl; find_event. Qed.

Lemma read_fields_Some a fs vs f :
  read_fields a fs = Some vs → f ∈ fs → is_Some (a !! f).
Proof.
  revert vs. induction fs as [|g fs IH]; intros vs H Hf; [inversion Hf|].
  simpl in H. destruct (a !! g) as [v|] eqn:Hg; [|discriminate].
  destruct (read_fields a fs) as [vs'|]; [|discriminate].
  apply elem_of_cons in Hf as [->|Hf]; eauto.
Qed.

(** X7.  In metric-learning mode nothing assigns [num_spkr], so when the
    parser supplied none the run stops during start-up: no criterion is
    constructed, no loop event is recorded, and the exception reports a
    field missing from the namespace (or the invalid [criterion]). *)
Theorem metriclearning_needs_num_spkr E cfg :
  cfg !! "criterion_type" = Some (VStr "metriclearning") →
  cfg !! "num_spkr" = None →
  (∀ k cargs d, ECriterionCtor k cargs d ∉ trace (run E cfg).2) ∧
  Forall (λ ev, loop_event ev = false) (trace (run E cfg).2) ∧
  ∃ e, (run E cfg).1 = inl e ∧
       ((∃ f, e = AttributeError f ∧ cfg !! f = None) ∨
        e = ValueError msg_criterion).
Proof.
  intros Hct Hns.
  assert (∀ k cargs d, ECriterionCtor k cargs d ∉ trace (run E cfg).2) as Hno.
  { intros k cargs d Hin.
    destruct (run_built E cfg) as (_ & _ & _ & _ & _ & Ha & _).
    apply run_built_elem in Hin as [(_ & Hf & _)|?]; [|done].
    destruct (read_fields_Some _ _ _ _ Hf (ctor_fields_num_spkr k)) as [v Hv].
    destruct Ha as [Ha|(ct & ds & Hct' & Hc & _)].
    - rewrite Ha in Hv. congruence.
    - rewrite Hct in Hct'. injection Hct' as <-. discriminate. }
  split; [exact Hno|].
  destruct (run_cases E cfg) as
    [(e & s1 & _ & Hr & (_ & _ & Hf & _) & He)
    |(dl & s1 & t & _ & _ & (_ & _ & (k & a & d & Hin) & _) & (_ & Ht & _) & _)].
  - rewrite Hr; simpl. split.
    + by apply startup_trace_quiet in Hf as (_ & _ & ?).
    + exists e. split; [done|].
      destruct He as [He|[[-> (ct & Hct' & H1 & H2)]|[-> _]]]; auto.
      rewrite Hct in Hct'. injection Hct' as <-. discriminate.
  - exfalso. apply (Hno k a d). rewrite Ht. apply elem_of_app. by left.
Qed.

Lemma metriclearning_needs_num_spkr_witness :
  (run env_two_same cfg_no_num_spkr).1 = inl (AttributeError "num_spkr") ∧
  (∀ k cargs d,
     ECriterionCtor k cargs d ∉ trace (run env_two_same cfg_no_num_spkr).2) ∧
  Forall (λ ev, loop_event ev = false)
    (trace (run env_two_same cfg_no_num_spkr).2).
Proof.
  destruct (metriclearning_needs_num_spkr env_two_same cfg_no_num_spkr)
    as (H1 & H2 & _).
  - reflexivity.
  - reflexivity.
  - split; [vm_compute; reflexivity|]. split; [exact H1|exact H2].
Defined.

(** ** Invariants of the training loop *)

Section LoopInvariant.
Context (E : env) (dl : loader) (a : gmap string value).
Context (J : pystate → Prop) (R : exn → Prop).
Hypothesis J_record :
  ∀ s ev, loop_event ev = true → quiet ev = true → J s → J (record ev s).
Hypothesis J_batch :
  ∀ e b s, b ∈ dl_iter E (dl_ds dl) (dl_batch_size dl) e →
    args s = a → J s →
    wp (batch_body E b) (λ _ s', args s' = a ∧ J s')
       (λ x s', args s' = a ∧ J s' ∧ R x) s.
Hypothesis R_missing : ∀ k, a !! k = None → R (AttributeError k).
Hypothesis R_range :
  ∀ nv, a !! "num_epochs" = Some nv → range_list nv = None →
        R (TypeError msg_range).

Lemma epoch_body_inv e s :
  args s = a → J s →
  wp (epoch_body E dl e) (λ _ s', args s' = a ∧ J s')
     (λ x s', args s' = a ∧ J s' ∧ R x) s.
Proof.
  intros Ha HJ. unfold epoch_body. apply wp_bind. wp_step. apply wp_bind.
  eapply wp_mono;
    [| |apply (wp_forM (λ s', args s' = a ∧ J s'))]; simpl.
  - intros _ s1 [Ha1 HJ1]. unfold save_checkpoint.
    apply wp_bind, wp_getattr.
    destruct (args s1 !! "save_model") as [sv|] eqn:Hsv.
    + destruct (truthy sv); repeat wp_step; [|done].
      split; [done|].
      apply (J_record (record _ (record _ s1))); [done..|].
      apply (J_record (record _ s1)); [done..|].
      by apply J_record.
    + rewrite Ha1 in Hsv. auto.
  - intros x s1 H. exact H.
  - split; [done|]. by apply J_record.
  - intros b s1 Hb [Ha1 HJ1]. by eapply J_batch.
Qed.

Lemma training_loop_inv s :
  args s = a → J (with_counter 0 s) →
  wp (training_loop E dl) (λ _ s', args s' = a ∧ J s')
     (λ x s', args s' = a ∧ J s' ∧ R x) s.
Proof.
  intros Ha HJ. unfold training_loop. apply wp_bind. wp_step.
  apply wp_bind, wp_getattr; simpl.
  destruct (args s !! "num_epochs") as [nv|] eqn:Hn.
  - rewrite Ha in Hn. apply wp_bind, wp_py_range.
    destruct (range_list nv) as [eps|] eqn:Hr; [|by eauto].
    eapply wp_mono;
      [| |apply (wp_forM (λ s', args s' = a ∧ J s'))]; simpl.
    + by intros _ s1 H.
    + intros x s1 H. exact H.
    + done.
    + intros e s1 _ [Ha1 HJ1]. by apply epoch_body_inv.
  - rewrite Ha in Hn. auto.
Qed.
End LoopInvariant.

Lemma startup_trace_filter E cfg tr (p : event → bool) :
  (∀ ev, p ev = true → loop_event ev = true) →
  Forall (startup_event E cfg) tr → Forall (λ ev, p ev = false) tr.
Proof.
  intros Hp Hf. apply startup_trace_quiet in Hf as (_ & _ & Hl).
  eapply Forall_impl; [exact Hl|]. intros ev Hev. simpl in Hev.
  destruct (p ev) eqn:Hpe; [|done]. apply Hp in Hpe. congruence.
Qed.

Lemma with_counter_id s : counter s = 0%nat → with_counter 0 s = s.
Proof. destruct s; simpl. by intros ->. Qed.

(** An invariant of the loop holds throughout every run, and a run that
    ends in an exception either raised it during start-up or in the loop. *)
Lemma run_inv E cfg (J : pystate → Prop) (R : exn → Prop) :
  (∀ s ev, loop_event ev = true → quiet ev = true → J s → J (record ev s)) →
  (∀ s, startup_inv E cfg s → J s) →
  (∀ dl s1, startup E (init cfg) = (inr dl, s1) →
     (∀ e b s, b ∈ dl_iter E (dl_ds dl) (dl_batch_size dl) e →
        args s = args s1 → J s →
        wp (batch_body E b) (λ _ s', args s' = args s1 ∧ J s')
           (λ x s', args s' = args s1 ∧ J s' ∧ R x) s) ∧
     (∀ k, args s1 !! k = None → R (AttributeError k)) ∧
     (∀ nv, args s1 !! "num_epochs" = Some nv → range_list nv = None →
            R (TypeError msg_range))) →
  J (run E cfg).2 ∧
  ∀ e, (run E cfg).1 = inl e →
       (∃ s1, startup E (init cfg) = (inl e, s1)) ∨ R e.
Proof.
  intros Hrec Hstart Hloop.
  pose proof (startup_spec E cfg) as Hs. unfold wp in Hs.
  rewrite run_unfold.
  destruct (startup E (init cfg)) as [[e|dl] s1] eqn:Hst; simpl.
  - destruct Hs as [Hinv _]. split; [by apply Hstart|].
    intros e' [= <-]. left. by exists s1.
  - destruct Hs as [Hinv _].
    destruct (Hloop dl s1 eq_refl) as (Hb & Hm & Hr).
    pose proof (training_loop_inv E dl (args s1) J R Hrec Hb Hm Hr s1 eq_refl)
      as Hl.
    rewrite with_counter_id in Hl by apply Hinv.
    specialize (Hl (Hstart _ Hinv)). apply wp_run in Hl.
    destruct (training_loop E dl s1) as [[e|[]] s2]; simpl in *.
    + split; [apply Hl|]. intros e' [= <-]. right. apply Hl.
    + split; [apply Hl|]. discriminate.
Qed.

(** *** Metric-learning mode never scores *)

Lemma batch_body_unscored E b s ct :
  args s !! "criterion_type" = Some ct →
  str_eq ct "classification" = false →
  loss s = None →
  Forall (λ ev, is_scoring ev = false) (trace s) →
  wp (batch_body E b) (λ _ _, False)
     (λ _ s', args s' = args s ∧ loss s' = None ∧
              Forall (λ ev, is_scoring ev = false) (trace s'))
     s.
Proof.
  intros Hct Hc Hl Hf. unfold batch_body, score_batch.
  repeat wp_step; try congruence.
  all: split; [done|]; split; [done|].
  all: rewrite <- !app_assoc; apply Forall_app; split; [done|].
  all: repeat constructor.
Qed.

Lemma count_loss_unscored tr :
  Forall (λ ev, is_scoring ev = false) tr → count_loss tr = 0%nat.
Proof.
  induction 1 as [|ev tr Hev _ IH]; simpl; [done|]. rewrite IH.
  destruct ev; simpl in *; done.
Qed.

(** X8.  In metric-learning mode, whatever the environment, no run ever
    calls the criterion, logs a scalar, backpropagates or steps the
    optimizer; [loss] stays unbound and the counter stays 0; and a run that
    completes is one whose loader never yielded a batch. *)
Theorem metriclearning_never_scores E cfg :
  cfg !! "criterion_type" = Some (VStr "metriclearning") →
  Forall (λ ev, is_scoring ev = false) (trace (run E cfg).2) ∧
  loss (run E cfg).2 = None ∧ counter (run E cfg).2 = 0%nat ∧
  ∀ dl s1, startup E (init cfg) = (inr dl, s1) → (run E cfg).1 = inr tt →
           total_batches E dl (epochs_of cfg) = 0%nat.
Proof.
  intros Hct.
  destruct (run_inv E cfg
              (λ s, loss s = None ∧
                    Forall (λ ev, is_scoring ev = false) (trace s))
              (λ _, True)) as [[Hl Hf] _].
  { intros s ev Hev Hq [? ?]. split; [done|].
    apply Forall_app. split; [done|]. constructor; [|done]. by destruct ev. }
  { intros s (_ & Hl & Hf & _). split; [done|].
    apply (startup_trace_filter E cfg); [|done]. by intros []. }
  { intros dl s1 Hs. split; [|done].
    pose proof (startup_spec E cfg) as Hsp. unfold wp in Hsp.
    rewrite Hs in Hsp. destruct Hsp as [(_ & _ & _ & Ha) _].
    intros e b s Hb Has [Hls Hfs].
    eapply wp_mono;
      [| |apply (batch_body_unscored E b s (VStr "metriclearning"))];
      simpl; try done.
    - intros _ s' (Ha' & ? & ?). by rewrite Ha', Has.
    - by rewrite Has, (args_after_lookup E cfg). }
  split; [done|]. split; [done|].
  destruct (run_log_steps E cfg) as [_ Hc].
  rewrite (count_loss_unscored _ Hf) in Hc. split; [done|].
  intros dl s1 Hs Hok.
  destruct (run_cases E cfg) as
    [(e & s1' & _ & Hr & _)
    |(dl' & s1' & t & Hs' & _ & _ & (_ & Ht & _) & Hres)].
  - rewrite Hr in Hok. discriminate.
  - rewrite Hok in Hres. destruct Hres as [Htot _].
    rewrite Hs in Hs'. injection Hs' as <- <-.
    rewrite Ht in Hf. apply Forall_app in Hf as [_ Hf].
    by rewrite <- Htot, (count_loss_unscored _ Hf).
Qed.

Lemma metriclearning_never_scores_witness :
  Forall (λ ev, is_scoring ev = false)
    (trace (run env_two_same cfg_metriclearning).2) ∧
  loss (run env_two_same cfg_metriclearning).2 = None ∧
  counter (run env_two_same cfg_metriclearning).2 = 0%nat.
Proof.
  destruct (metriclearning_never_scores env_two_same cfg_metriclearning)
    as (H1 & H2 & H3 & _); [reflexivity|].
  split; [exact H1|]. split; [exact H2|exact H3].
Defined.

(** *** The accuracy that is logged *)

Lemma acc_value_bounded (N cnt n : nat) :
  (cnt ≤ S n * N)%nat →
  (0 <= Z.of_nat cnt # Pos.of_nat (S n))%Q ∧
  (Z.of_nat cnt # Pos.of_nat (S n) <= inject_Z (Z.of_nat N))%Q.
Proof.
  intros H1. unfold Qle; cbn [Qnum Qden inject_Z].
  assert (Z.pos (Pos.of_nat (S n)) = Z.of_nat (S n)) as -> by lia.
  split; nia.
Qed.

Lemma batch_body_acc_bounded E N b s :
  pairs_bounded E N b →
  Forall (acc_bounded N) (trace s) →
  wp (batch_body E b)
     (λ _ s', args s' = args s ∧ Forall (acc_bounded N) (trace s'))
     (λ _ s', args s' = args s ∧ Forall (acc_bounded N) (trace s') ∧ True)
     s.
Proof.
  intros Hpairs Hf. specialize (Hpairs (counter s)).
  unfold batch_y in Hpairs. unfold batch_body, score_batch.
  repeat wp_step.
  all: repeat split; try done.
  all: rewrite <- !app_assoc; apply Forall_app; split; [done|].
  all: repeat first [apply List.Forall_nil | apply List.Forall_cons].
  all: try exact I.
  all: intros Htag; try discriminate Htag; simpl in Hpairs.
  all: by apply acc_value_bounded.
Qed.

Lemma run_acc_bounded E cfg N :
  (∀ ds bs e b, b ∈ dl_iter E ds bs e → pairs_bounded E N b) →
  Forall (acc_bounded N) (trace (run E cfg).2).
Proof.
  intros Hb.
  apply (run_inv E cfg (λ s, Forall (acc_bounded N) (trace s)) (λ _, True)).
  - intros s ev Hev Hq Hf. apply Forall_app. split; [done|].
    constructor; [|done]. by destruct ev.
  - intros s (_ & _ & Hf & _). eapply Forall_impl; [exact Hf|].
    intros ev Hev. by destruct ev.
  - intros dl s1 Hs. split; [|done]. intros e b s Hin Has Hf.
    eapply wp_mono; [| |apply (batch_body_acc_bounded E N b s)]; simpl.
    + intros _ s' [Ha' ?]. by rewrite Ha', Has.
    + intros _ s' (Ha' & ? & _). by rewrite Ha', Has.
    + by eapply Hb.
    + done.
Qed.

(** X9.  When the criterion returns at most one row of scores per row of
    the model output and no batch holds more than [N] targets, every
    ['acc'] scalar the run logs lies between 0 and [N]: the bound the code
    guarantees is the batch size, and it is 1 only for batches of one
    sample. *)
Theorem logged_accuracy_bound E cfg N :
  (∀ ds bs e b c, b ∈ dl_iter E ds bs e →
     (length (criterion_fwd E c (batch_y E c b) (batch_target b)).1
      ≤ size0 (batch_y E c b))%nat ∧
     (length (batch_target b) ≤ N)%nat) →
  Forall (acc_bounded N) (trace (run E cfg).2).
Proof.
  intros Hb. apply run_acc_bounded. intros ds bs e b Hin c.
  destruct (Hb ds bs e b c Hin) as [Hrows Hlen].
  etrans; [apply sum_item_broadcast_le|]. by apply Nat.mul_le_mono.
Qed.

Lemma logged_accuracy_bound_witness :
  Forall (acc_bounded 2) (trace (run env_two_same cfg_classification).2).
Proof.
  apply (logged_accuracy_bound env_two_same cfg_classification 2).
  intros ds bs e b c ->%list_elem_of_singleton. split; vm_compute; lia.
Defined.

Lemma matches_absent (p : Z) (target : list Z) :
  p ∉ target → filter (λ b, b = true) (map (Z.eqb p) target) = [].
Proof.
  induction target as [|t target IH]; intros Hp; simpl; [done|].
  apply not_elem_of_cons in Hp as [Hne Hp].
  rewrite filter_cons_False; [by apply IH|].
  intros Heq. apply Z.eqb_eq in Heq. done.
Qed.

Lemma matches_nodup (p : Z) (target : list Z) :
  NoDup target →
  (length (filter (λ b, b = true) (map (Z.eqb p) target)) ≤ 1)%nat.
Proof.
  induction 1 as [|t target Ht _ IH]; simpl; [lia|].
  destruct (Z.eqb p t) eqn:Hpt.
  - rewrite filter_cons_True by done. apply Z.eqb_eq in Hpt as ->.
    rewrite matches_absent by done. simpl. lia.
  - rewrite filter_cons_False; [done|]. by intros [=].
Qed.

Lemma sum_item_nodup scores target :
  NoDup target →
  (sum_item (eq_broadcast (topk1_indices scores) target) ≤ length scores)%nat.
Proof.
  intros Hnd. unfold sum_item, eq_broadcast, topk1_indices.
  induction scores as [|row scores IH]; [done|].
  cbn [map concat]. rewrite filter_app, List.length_app.
  pose proof (matches_nodup (argmax row) target Hnd). simpl. lia.
Qed.

(** X12.  When moreover the targets of every batch are pairwise distinct
    (no two samples of one speaker in a batch), every ['acc'] scalar the
    run logs lies in [0,1]: each prediction can then equal at most one
    target. *)
Theorem logged_accuracy_unit_when_distinct E cfg :
  (∀ ds bs e b c, b ∈ dl_iter E ds bs e →
     (length (criterion_fwd E c (batch_y E c b) (batch_target b)).1
      ≤ size0 (batch_y E c b))%nat ∧
     NoDup (batch_target b)) →
  Forall (acc_bounded 1) (trace (run E cfg).2).
Proof.
  intros Hb. apply run_acc_bounded. intros ds bs e b Hin c.
  destruct (Hb ds bs e b c Hin) as [Hrows Hnd].
  etrans; [by apply sum_item_nodup|]. lia.
Qed.

(** *** The exceptions a run can end in *)

Lemma batch_body_exn E b s :
  wp (batch_body E b) (λ _ s', args s' = args s)
     (λ x s', args s' = args s ∧ loop_exn (args s) x) s.
Proof.
  unfold batch_body, score_batch.
  repeat wp_step; try done.
  all: split; [done|]; unfold loop_exn.
  all: first
    [ left; eexists; split; [reflexivity|assumption]
    | right; right; left; split; [reflexivity|];
      str_eq_subst; assumption
    | right; right; right; split; [reflexivity|]; eauto ].
Qed.

(** X10.  A run can only end in one of six ways other than normally: a
    field the script reads is missing from the namespace; [criterion_type]
    or [criterion] is invalid; [num_epochs] is not an integer; in
    classification mode the model returned an empty output and the accuracy
    divides by zero; in metric-learning mode [loss] is unbound at
    [loss.backward()]. *)
Theorem run_exceptions E cfg e s' :
  run E cfg = (inl e, s') → run_exn cfg e.
Proof.
  intros Hr.
  destruct (run_inv E cfg (λ _, True)
              (λ x, ∀ dl s1, startup E (init cfg) = (inr dl, s1) →
                             loop_exn (args s1) x)) as [_ H]; try done.
  { intros dl s1 Hs. split; [|split].
    - intros ep b s Hb Has _.
      eapply wp_mono; [| |apply batch_body_exn]; simpl.
      + intros _ s2 Ha. by rewrite Ha.
      + intros x s2 [Ha Hx]. split; [by rewrite Ha|]. split; [done|].
        intros dl' s1' Hs'. rewrite Hs in Hs'. injection Hs' as <- <-.
        by rewrite <- Has.
    - intros k Hk dl' s1' Hs'. rewrite Hs in Hs'. injection Hs' as <- <-.
      left. eauto.
    - intros nv Hn Hrg dl' s1' Hs'. rewrite Hs in Hs'. injection Hs' as <- <-.
      right. left. eauto. }
  destruct (H e) as [[s1 Hs]|Hx]; [by rewrite Hr|..].
  - left. pose proof (startup_spec E cfg) as Hsp. unfold wp in Hsp.
    rewrite Hs in Hsp. apply Hsp.
  - destruct (run_built E cfg) as (t0 & t & _ & Hb & _ & Ha & Hsh).
    pose proof (startup_spec E cfg) as Hsp. unfold wp in Hsp.
    destruct (startup E (init cfg)) as [[e1|dl] s1] eqn:Hs.
    { rewrite run_unfold, Hs in Hr. injection Hr as <- <-. left. apply Hsp. }
    destruct (Hsh dl s1 eq_refl) as (-> & Ha1 & nw & mp & ld & k & cargs & lr & clr & _ & Htr).
    rewrite Ha1 in Htr. rewrite Htr in Hb.
    apply Forall_cons in Hb as [(Hct & _) _].
    specialize (Hx dl s1 eq_refl). rewrite Ha1 in Hx.
    destruct Hx as [(f & -> & Hf)|[[-> (nv & Hn & Hrg)]|[[-> Hc]|[-> (ct & Hc & Hne)]]]].
    + left. left. exists f. split; [done|]. by eapply args_after_None.
    + right. left. split; [done|]. exists nv.
      by rewrite <- (args_after_lookup E cfg (args (run E cfg).2)).
    + right. right. left. split; [done|].
      by rewrite <- (args_after_lookup E cfg (args (run E cfg).2)).
    + right. right. right. split; [done|].
      rewrite <- (args_after_lookup E cfg (args (run E cfg).2)) by done.
      rewrite Hct in Hc. injection Hc as <-. rewrite Hct.
      destruct (ds_kind (dl_ds dl)); [discriminate|done].
Qed.

Lemma run_exceptions_witness :
  run_exn cfg_metriclearning (NameError "loss").
Proof.
  apply (run_exceptions env_two_same cfg_metriclearning (NameError "loss")
           (run env_two_same cfg_metriclearning).2).
  apply pair_of_fst. vm_compute. reflexivity.
Defined.

(** *** One optimizer step per completed batch *)

Lemma count_events_app p t1 t2 :
  count_events p (t1 ++ t2) = (count_events p t1 + count_events p t2)%nat.
Proof. unfold count_events. by rewrite List.filter_app, List.length_app. Qed.

Lemma batch_body_counts E b s :
  count_events is_optimizer_step (trace s) = counter s →
  count_events is_backward (trace s) = counter s →
  wp (batch_body E b)
     (λ _ s', args s' = args s ∧
              count_events is_optimizer_step (trace s') = counter s' ∧
              count_events is_backward (trace s') = counter s')
     (λ _ s', args s' = args s ∧
              (count_events is_optimizer_step (trace s') = counter s' ∧
               count_events is_backward (trace s') = counter s') ∧ True)
     s.
Proof.
  intros Ho Hb. unfold batch_body, score_batch.
  repeat wp_step.
  all: repeat split; try done.
  all: rewrite !count_events_app, ?Ho, ?Hb; unfold count_events; simpl; lia.
Qed.

(** X11.  In every run, whatever its outcome, the number of backward passes
    and the number of optimizer steps both equal the final value of the
    counter: each completed batch backpropagates once and steps the
    optimizer once, and a batch that fails does neither. *)
Theorem one_step_per_batch E cfg :
  count_events is_optimizer_step (trace (run E cfg).2) = counter (run E cfg).2 ∧
  count_events is_backward (trace (run E cfg).2) = counter (run E cfg).2.
Proof.
  apply (run_inv E cfg
           (λ s, count_events is_optimizer_step (trace s) = counter s ∧
                 count_events is_backward (trace s) = counter s)
           (λ _, True)).
  - intros s ev Hev Hq [Ho Hb]. unfold record; simpl.
    rewrite !count_events_app, Ho, Hb. unfold count_events.
    destruct ev; simpl in *; try done; lia.
  - intros s (Hc & _ & Hf & _). rewrite Hc. unfold count_events.
    assert (∀ p, (∀ ev, p ev = true → loop_event ev = true) →
                 List.filter p (trace s) = []) as Hnil.
    { intros p Hp. apply (startup_trace_filter E cfg _ p Hp) in Hf.
      induction Hf as [|ev tr Hev _ IH]; simpl; [done|]. by rewrite Hev. }
    rewrite !Hnil; [done|by intros []..].
  - intros dl s1 Hs. split; [|done]. intros e b s Hin Has [Ho Hb].
    eapply wp_mono; [| |by apply batch_body_counts]; simpl.
    + intros _ s' (Ha' & ? & ?). by rewrite Ha', Has.
    + intros _ s' (Ha' & ? & _). by rewrite Ha', Has.
Qed.

Lemma logged_accuracy_unit_when_distinct_witness :
  Forall (acc_bounded 1) (trace (run env_two_distinct cfg_classification).2).
Proof.
  apply (logged_accuracy_unit_when_distinct env_two_distinct cfg_classification).
  intros ds bs e b c ->%list_elem_of_singleton. split.
  - vm_compute. lia.
  - by apply (bool_decide_unpack _).
Defined.

Lemma one_step_per_batch_witness :
  count_events is_optimizer_step
    (trace (run env_two_same cfg_classification).2) = 1%nat ∧
  count_events is_backward
    (trace (run env_two_same cfg_classification).2) = 1%nat.
Proof.
  destruct (one_step_per_batch env_two_same cfg_classification) as [H1 H2].
  rewrite H1, H2. split; vm_compute; reflexivity.
Defined.

(** *** Which scalars are logged, and when *)

Lemma batch_body_scalars E b s :
  (args s !! "criterion_type" ≠ Some (VStr "classification") → loss s = None) →
  Forall (scalar_ok (args s)) (trace s) →
  wp (batch_body E b)
     (λ _ s', args s' = args s ∧
        (args s !! "criterion_type" ≠ Some (VStr "classification") →
         loss s' = None) ∧
        Forall (scalar_ok (args s)) (trace s'))
     (λ _ s', args s' = args s ∧
        ((args s !! "criterion_type" ≠ Some (VStr "classification") →
          loss s' = None) ∧
         Forall (scalar_ok (args s)) (trace s')) ∧ True)
     s.
Proof.
  intros Hl Hf. unfold batch_body, score_batch.
  repeat wp_step.
  all: str_eq_subst.
  all: try match goal with
           | Hl : ?P → Some _ = None |- _ =>
               exfalso; cut P;
               [let HP := fresh in intros HP; specialize (Hl HP);
                discriminate Hl|];
               intros [= ->]; simpl in *; discriminate
           end.
  all: repeat split; try done.
  all: try (intros Hne; by rewrite Hk in Hne).
  all: rewrite <- !app_assoc; apply Forall_app; split; [done|].
  all: repeat first [apply List.Forall_nil | apply List.Forall_cons].
  all: try exact I.
  all: split; [done|auto].
Qed.

(** X13.  Scalars are only ever logged in classification mode, and only
    under the tags ['acc'] and ['loss']. *)
Theorem scalars_only_in_classification E cfg tag v st :
  EAddScalar tag v st ∈ trace (run E cfg).2 →
  cfg !! "criterion_type" = Some (VStr "classification") ∧
  (tag = "acc" ∨ tag = "loss").
Proof.
  intros Hin.
  destruct (run_built E cfg) as (_ & _ & _ & _ & _ & Ha & _).
  destruct (run_inv E cfg
              (λ s, (args s !! "criterion_type"
                     ≠ Some (VStr "classification") → loss s = None) ∧
                    Forall (scalar_ok (args s)) (trace s))
              (λ _, True)) as [[_ Hf] _].
  - intros s ev Hev Hq [Hl Hf]. split; [done|]. simpl.
    apply Forall_app. split; [done|]. constructor; [|done]. by destruct ev.
  - intros s (_ & Hl & Hf & _). split; [done|].
    eapply Forall_impl; [exact Hf|]. intros ev Hev. by destruct ev.
  - intros dl s1 Hs. split; [|done]. intros e b s Hb Has [Hl Hf].
    eapply wp_mono; [| |by apply batch_body_scalars]; simpl.
    + intros _ s' (Ha' & ? & ?). by rewrite Ha'.
    + intros _ s' (Ha' & [? ?] & _). by rewrite Ha'.
  - rewrite Forall_forall in Hf. destruct (Hf _ Hin) as [Hc Ht].
    split; [|done].
    by rewrite <- (args_after_lookup E cfg (args (run E cfg).2)).
Qed.

Lemma scalars_only_in_classification_witness :
  cfg_classification !! "criterion_type" = Some (VStr "classification") ∧
  ("acc" = "acc" ∨ "acc" = "loss").
Proof.
  apply (scalars_only_in_classification env_two_same cfg_classification
           "acc" (4 # 2) 0).
  apply (filter_elem is_acc_log _ [EAddScalar "acc" (4 # 2) 0]).
  - vm_compute. reflexivity.
  - left. reflexivity.
Defined.

(** ** Names of the checkpoint files *)

Lemma string_length_app (s t : string) :
  String.length (s ++ t) = (String.length s + String.length t)%nat.
Proof. induction s as [|c s IH]; simpl; [done|]. by rewrite IH. Qed.

Lemma string_app_inv_r (s1 s2 t : string) :
  (s1 ++ t = s2 ++ t)%string → s1 = s2.
Proof.
  revert s2. induction s1 as [|c s1 IH]; intros [|c' s2] H.
  - done.
  - apply (f_equal String.length) in H.
    rewrite !string_length_app in H. simpl in H. lia.
  - apply (f_equal String.length) in H.
    rewrite !string_length_app in H. simpl in H. lia.
  - change (String c (s1 ++ t) = String c' (s2 ++ t))%string in H.
    injection H as -> H. f_equal. by apply IH.
Qed.

Lemma parse_str_of_nat n :
  NilEmpty.uint_of_string (str_of_nat n) = Some (Nat.to_uint n) ∨
  (Nat.to_uint n = Decimal.Nil ∧
   NilEmpty.uint_of_string (str_of_nat n) = Some Decimal.zero).
Proof.
  unfold str_of_nat. destruct (Nat.to_uint n) eqn:Hd;
    [right; by split|left..]; apply NilEmpty.usu.
Qed.

Lemma str_of_nat_nonempty n : str_of_nat n ≠ "".
Proof. unfold str_of_nat. by destruct (Nat.to_uint n). Qed.

(** The formatted epoch number reads back as the number. *)
Lemma parse_nat_fmt_02d n : parse_nat (fmt_02d n) = Some n.
Proof.
  assert (option_map Nat.of_uint (NilEmpty.uint_of_string (str_of_nat n))
          = Some n) as Hn.
  { destruct (parse_str_of_nat n) as [->|[Hd ->]]; simpl.
    - by rewrite DecimalNat.Unsigned.of_to.
    - rewrite <- (DecimalNat.Unsigned.of_to n), Hd. reflexivity. }
  unfold parse_nat, fmt_02d.
  pose proof (str_of_nat_nonempty n) as Hne.
  destruct (Nat.ltb _ 2).
  - cbv [String.append NilZero.uint_of_string].
    cbn [NilEmpty.uint_of_string].
    destruct (NilEmpty.uint_of_string (str_of_nat n)) as [d|]; [|done].
    simpl in *. injection Hn as <-. reflexivity.
  - destruct (str_of_nat n); [done|exact Hn].
Qed.

Lemma fmt_02d_inj n m : fmt_02d n = fmt_02d m → n = m.
Proof.
  intros H. apply (f_equal parse_nat) in H.
  rewrite !parse_nat_fmt_02d in H. by injection H.
Qed.

(** X14.  The paths of the checkpoint files are pairwise distinct: two
    checkpoints have the same path only if they are the same component of
    the same epoch, so a run never overwrites a file it wrote earlier. *)
Theorem checkpoint_files_distinct st st' e e' :
  st ∈ checkpoint_stems → st' ∈ checkpoint_stems →
  checkpoint_file st e = checkpoint_file st' e' → st = st' ∧ e = e'.
Proof.
  unfold checkpoint_stems, checkpoint_file. intros Hs Hs' H.
  repeat (apply elem_of_cons in Hs as [->|Hs]);
    repeat (apply elem_of_cons in Hs' as [->|Hs']);
    try (by inversion Hs); try (by inversion Hs').
  all: try (apply (f_equal (String.get 7)) in H; vm_compute in H;
            discriminate H).
  all: split; [done|].
  all: do 3 apply (inj (String.app _)) in H.
  all: apply string_app_inv_r, fmt_02d_inj in H; lia.
Qed.

Lemma checkpoint_files_distinct_witness :
  "crit" = "crit" ∧ 4%nat = 4%nat.
Proof.
  apply (checkpoint_files_distinct "crit" "crit" 4 4).
  - unfold checkpoint_stems. find_event.
  - unfold checkpoint_stems. find_event.
  - reflexivity.
Defined.

(** X15.  The epoch field of a file name has at least two characters and
    exactly two for epochs up to 99 (one-digit epochs are padded with a
    zero), and reading it back as a decimal number gives the epoch. *)
Theorem epoch_field_format n :
  (2 ≤ String.length (fmt_02d n))%nat ∧
  ((n < 100)%nat → String.length (fmt_02d n) = 2%nat) ∧
  parse_nat (fmt_02d n) = Some n.
Proof.
  split; [|split; [|apply parse_nat_fmt_02d]].
  - unfold fmt_02d. pose proof (str_of_nat_nonempty n) as Hne.
    destruct (Nat.ltb_spec (String.length (str_of_nat n)) 2); [|done].
    destruct (str_of_nat n); [done|]. simpl. lia.
  - intros Hn.
    assert (forallb (λ k, Nat.eqb (String.length (fmt_02d k)) 2) (seq 0 100)
            = true) as Hall by (vm_compute; reflexivity).
    rewrite forallb_forall in Hall.
    apply Nat.eqb_eq, Hall, in_seq. lia.
Qed.

Lemma epoch_field_format_witness :
  fmt_02d 7 = "07" ∧ String.length (fmt_02d 7) = 2%nat ∧
  fmt_02d 123 = "123".
Proof.
  destruct (epoch_field_format 7) as (_ & H & _).
  split; [reflexivity|]. split; [apply H; lia|reflexivity].
Defined.

(** * Whole runs: the namespace, the checkpoints, the accuracy *)

(** ** The namespace during the run *)

Lemma startup_namespace E cfg :
  wp (startup E)
     (λ _ s, args s = namespace_after E cfg (trace s))
     (λ _ s, args s = namespace_after E cfg (trace s))
     (init cfg).
Proof.
  unfold startup, make_dataset, make_loader, make_modules, resume_checkpoint,
    make_log, make_criterion, make_optimizer, init.
  repeat wp_step.
  all: unfold namespace_after; cbn [app first_dataset ds_kind]; reflexivity.
Qed.

Lemma first_dataset_app t0 t :
  first_dataset (t0 ++ t)
  = match first_dataset t0 with
    | Some ds => Some ds
    | None => first_dataset t
    end.
Proof. induction t0 as [|ev t0 IH]; [done|]. by destruct ev. Qed.

Lemma first_dataset_loop t :
  Forall (λ ev, loop_event ev = true) t → first_dataset t = None.
Proof.
  induction 1 as [|ev t Hev _ IH]; [done|]. by destruct ev.
Qed.

Lemma namespace_after_app E cfg t0 t :
  Forall (λ ev, loop_event ev = true) t →
  namespace_after E cfg (t0 ++ t) = namespace_after E cfg t0.
Proof.
  intros Hl. unfold namespace_after.
  rewrite first_dataset_app, (first_dataset_loop t Hl).
  by destruct (first_dataset t0).
Qed.

Lemma training_loop_frame E dl s : args (training_loop E dl s).2 = args s.
Proof.
  pose proof (training_loop_spec E dl s) as Hl. unfold wp in Hl.
  destruct (training_loop E dl s) as [[e|[]] s2]; simpl.
  - by destruct Hl as (t & done & (Ha & _) & _).
  - by destruct Hl as (t & (Ha & _) & _).
Qed.

Lemma run_namespace E cfg :
  args (run E cfg).2 = namespace_after E cfg (trace (run E cfg).2).
Proof.
  pose proof (startup_namespace E cfg) as Hn. unfold wp in Hn.
  rewrite run_unfold.
  destruct (startup E (init cfg)) as [[e|dl] s1]; simpl; [done|].
  pose proof (training_loop_spec E dl s1) as Hl. unfold wp in Hl.
  destruct (training_loop E dl s1) as [[e|[]] s2]; simpl.
  - destruct Hl as (t & done & (Ha & Ht & Hf & _) & _).
    by rewrite Ha, Ht, namespace_after_app.
  - destruct Hl as (t & (Ha & Ht & Hf & _) & _).
    by rewrite Ha, Ht, namespace_after_app.
Qed.

(** C2, as stated, fails: in classification mode the namespace the run ends
    with differs from the parsed one ([num_spkr] was 5, the run leaves 3). *)
Lemma C2_config_is_modified :
  ¬ (∀ k, args (run env_two_same cfg_classification).2 !! k
          = cfg_classification !! k).
Proof.
  intros H. specialize (H "num_spkr"). vm_compute in H. discriminate.
Qed.

(** C2, amended.  The only write to the namespace is the assignment of
    [num_spkr] at line 36, made in classification mode with the length of
    the dataset just constructed.  Every other field keeps its parsed value,
    and with any other [criterion_type] the namespace is the parsed one; the
    namespace the run ends with is the parsed one with [num_spkr] set to
    [len(ds)] as soon as a [ClassificationVCDS] has been constructed, and
    unchanged otherwise; [kwargs] being the same object, the feature
    extractor and the model are constructed with that namespace; and the
    training loop, started in any state, leaves the namespace as it found
    it. *)
Theorem C2_config_frame E cfg :
  (∀ k, k ≠ "num_spkr" → args (run E cfg).2 !! k = cfg !! k) ∧
  (args (run E cfg).2 = cfg ∨
   ∃ ds, cfg !! "criterion_type" = Some (VStr "classification") ∧
         classification_dataset cfg = Some ds ∧
         args (run E cfg).2 = <["num_spkr" := VInt (Z.of_nat (ds_len E ds))]> cfg) ∧
  args (run E cfg).2 = namespace_after E cfg (trace (run E cfg).2) ∧
  (∀ kw d, ETransform kw d ∈ trace (run E cfg).2 ∨
           EModelCtor kw d ∈ trace (run E cfg).2 →
           kw = args (run E cfg).2) ∧
  (∀ dl s, args (training_loop E dl s).2 = args s).
Proof.
  destruct (run_trace_split E cfg) as (t0 & t & _ & _ & _ & _ & _ & Ha).
  split; [|split; [|split; [|split]]].
  - intros k Hk. by apply (args_after_lookup E).
  - destruct Ha as [->|(ct & ds & Hct & Hc%str_eq_true & Hds & ->)]; [by left|].
    right. exists ds. by subst ct.
  - apply run_namespace.
  - intros kw d [Hin|Hin]; apply run_built_elem in Hin as [[? _]|?]; done.
  - apply training_loop_frame.
Qed.

Lemma C2_witness :
  args (run env_speakers cfg_classification).2
    = <["num_spkr" := VInt 2]> cfg_classification ∧
  args (run env_speakers cfg_classification).2 !! "batch_size"
    = Some (VInt 2) ∧
  ∀ kw d, ETransform kw d ∈ trace (run env_speakers cfg_classification).2 →
          kw !! "num_spkr" = Some (VInt 2).
Proof.
  destruct (C2_config_frame env_speakers cfg_classification)
    as (Hk & _ & Hns & Hkw & _).
  assert (first_dataset (trace (run env_speakers cfg_classification).2)
          = Some (Dataset ClassificationVCDS
                    [VStr "train.csv"; VInt 400; VInt 160; VInt 200])) as Hds
    by (vm_compute; reflexivity).
  assert (args (run env_speakers cfg_classification).2
          = <["num_spkr" := VInt 2]> cfg_classification) as Hfin.
  { rewrite Hns. unfold namespace_after. rewrite Hds. reflexivity. }
  split; [exact Hfin|]. split.
  - rewrite Hk; [reflexivity|discriminate].
  - intros kw d Hin. rewrite (Hkw kw d (or_introl Hin)), Hfin.
    apply lookup_insert_eq.
Defined.

(** ** Checkpoints *)

Lemma str_of_nat_short n :
  (String.length (str_of_nat n) < 2)%nat → (n < 10)%nat.
Proof.
  unfold str_of_nat. rewrite <- (DecimalNat.Unsigned.of_to n) at 2.
  destruct (Nat.to_uint n) as [|d|d|d|d|d|d|d|d|d|d];
    [vm_compute; lia|..].
  all: destruct d; cbn [NilZero.string_of_uint NilEmpty.string_of_uint String.length];
    try lia.
  all: vm_compute; lia.
Qed.

Lemma fmt_02d_epoch_field n : fmt_02d n = epoch_field n.
Proof.
  unfold epoch_field. destruct (Nat.ltb_spec n 100) as [Hn|Hn].
  - assert (forallb (λ k, String.eqb (fmt_02d k)
                            (String (digit_char (k / 10))
                               (String (digit_char (k mod 10)) "")))
              (seq 0 100) = true) as Hall by (vm_compute; reflexivity).
    rewrite forallb_forall in Hall.
    apply String.eqb_eq, Hall, in_seq. lia.
  - unfold fmt_02d. destruct (Nat.ltb_spec (String.length (str_of_nat n)) 2)
      as [Hl|Hl]; [|done].
    apply str_of_nat_short in Hl. lia.
Qed.

Lemma epoch_checkpoints_claimed e : epoch_checkpoints e = claimed_checkpoints e.
Proof.
  unfold epoch_checkpoints, claimed_checkpoints, checkpoint_file.
  by rewrite fmt_02d_epoch_field.
Qed.

Example checkpoint_names :
  epoch_checkpoints 0 =
    [ESave Model "models/model_01.pt"; ESave Criterion "models/crit_01.pt";
     ESave Optimizer "models/optim_01.pt"] ∧
  epoch_checkpoints 11 =
    [ESave Model "models/model_12.pt"; ESave Criterion "models/crit_12.pt";
     ESave Optimizer "models/optim_12.pt"].
Proof. split; reflexivity. Qed.

Lemma batch_body_training E b s :
  wp (batch_body E b)
     (λ _ s', args s' = args s ∧
        ∃ B, trace s' = trace s ++ B ∧
             Forall (λ ev, is_training_step ev = true) B)
     (λ _ s', args s' = args s ∧
        ∃ B, trace s' = trace s ++ B ∧
             Forall (λ ev, is_training_step ev = true) B)
     s.
Proof.
  unfold batch_body, score_batch.
  repeat wp_step.
  all: split; [reflexivity|]; rewrite <- ?app_assoc; cbn [app];
    eexists; split; [reflexivity|].
  all: repeat first [apply List.Forall_nil
                    |apply List.Forall_cons; [reflexivity|]].
Qed.

Lemma batches_training E bs s :
  wp (forM_ bs (batch_body E))
     (λ _ s', args s' = args s ∧
        ∃ B, trace s' = trace s ++ B ∧
             Forall (λ ev, is_training_step ev = true) B)
     (λ _ s', args s' = args s ∧
        ∃ B, trace s' = trace s ++ B ∧
             Forall (λ ev, is_training_step ev = true) B)
     s.
Proof.
  eapply wp_mono;
    [| |apply (wp_forM
                 (λ s', args s' = args s ∧
                    ∃ B, trace s' = trace s ++ B ∧
                         Forall (λ ev, is_training_step ev = true) B))].
  - intros x s' H. exact H.
  - intros x s' H. exact H.
  - split; [done|]. exists []. by rewrite app_nil_r.
  - intros b s1 _ (Ha1 & B1 & Ht1 & Hf1).
    eapply wp_mono; [| |apply batch_body_training].
    + intros _ s2 (Ha2 & B2 & Ht2 & Hf2). split; [congruence|].
      exists (B1 ++ B2). rewrite Ht2, Ht1, app_assoc.
      split; [done|]. by apply Forall_app.
    + intros _ s2 (Ha2 & B2 & Ht2 & Hf2). split; [congruence|].
      exists (B1 ++ B2). rewrite Ht2, Ht1, app_assoc.
      split; [done|]. by apply Forall_app.
Qed.

(** One epoch: the banner, per-batch steps, and then the three files when
    the flag is set; an epoch that raises has written none. *)
Lemma epoch_body_shape E dl e s :
  wp (epoch_body E dl e)
     (λ _ s', args s' = args s ∧
        ∃ B, Forall (λ ev, is_training_step ev = true) B ∧
          trace s' = trace s ++ EPrint (epoch_banner e) :: B
                     ++ (if save_flag (args s) then claimed_checkpoints e
                         else []))
     (λ _ s', args s' = args s ∧
        ∃ B, Forall (λ ev, is_training_step ev = true) B ∧
          trace s' = trace s ++ EPrint (epoch_banner e) :: B)
     s.
Proof.
  unfold epoch_body. apply wp_bind. wp_step. apply wp_bind.
  eapply wp_mono; [| |apply batches_training]; wp_simpl.
  - intros _ s1 (Ha1 & B & Ht1 & HB).
    unfold save_checkpoint, save_flag. rewrite <- Ha1.
    rewrite <- epoch_checkpoints_claimed.
    wp_step; repeat wp_step.
    all: split; [done|]; exists B; split; [done|].
    all: rewrite Ht1, <- ?app_assoc; cbn [app]; rewrite ?app_nil_r;
      reflexivity.
  - intros _ s1 (Ha1 & B & Ht1 & HB). split; [done|]. exists B.
    split; [done|]. by rewrite Ht1, <- app_assoc.
Qed.

Lemma epochs_shape_spec E dl eps s :
  wp (forM_ eps (epoch_body E dl))
     (λ _ s', args s' = args s ∧
        ∃ t, trace s' = trace s ++ t ∧
             epochs_shape (save_flag (args s)) eps t)
     (λ _ s', args s' = args s ∧
        ∃ done t rest, done `prefix_of` eps ∧
          trace s' = trace s ++ t ++ rest ∧
          epochs_shape (save_flag (args s)) done t ∧
          Forall (λ ev, is_save ev = false) rest)
     s.
Proof.
  revert s. induction eps as [|e eps IH]; intros s; simpl.
  - apply wp_ret. split; [done|]. exists []. by rewrite app_nil_r.
  - apply wp_bind. eapply wp_mono; [| |apply epoch_body_shape].
    + intros _ s1 (Ha1 & B & HB & Ht1). simpl.
      eapply wp_mono; [| |apply IH].
      * intros _ s2 (Ha2 & t2 & Ht2 & Hsh). split; [congruence|].
        exists (EPrint (epoch_banner e) :: B
                 ++ (if save_flag (args s) then claimed_checkpoints e else [])
                 ++ t2).
        split; [|exists B, t2; split; [done|]; split; [reflexivity|]].
        -- rewrite Ht2, Ht1, <- !app_assoc. cbn [app].
           by rewrite <- !app_assoc.
        -- by rewrite <- Ha1.
      * intros _ s2 (Ha2 & done & t2 & rest & Hp & Ht2 & Hsh & Hrest).
        split; [congruence|].
        exists (e :: done), (EPrint (epoch_banner e) :: B
                 ++ (if save_flag (args s) then claimed_checkpoints e else [])
                 ++ t2), rest.
        split; [by apply prefix_cons|]. split; [|split; [|done]].
        -- rewrite Ht2, Ht1, <- !app_assoc. cbn [app].
           by rewrite <- !app_assoc.
        -- exists B, t2. split; [done|]. split; [done|]. by rewrite <- Ha1.
    + intros _ s1 (Ha1 & B & HB & Ht1). split; [done|].
      exists [], [], (EPrint (epoch_banner e) :: B).
      split; [apply prefix_nil|]. split; [done|]. split; [done|].
      constructor; [done|]. eapply Forall_impl; [exact HB|].
      intros ev Hev. by destruct ev.
Qed.

Lemma training_loop_shape E dl s :
  wp (training_loop E dl)
     (λ _ s', ∃ t, trace s' = trace s ++ t ∧
        epochs_shape (save_flag (args s)) (epochs_of (args s)) t)
     (λ _ s', ∃ done t rest, done `prefix_of` epochs_of (args s) ∧
        trace s' = trace s ++ t ++ rest ∧
        epochs_shape (save_flag (args s)) done t ∧
        Forall (λ ev, is_save ev = false) rest)
     s.
Proof.
  unfold training_loop, epochs_of. do 4 wp_step.
  - apply wp_bind, wp_py_range. destruct (range_list v) as [eps|]; simpl.
    + eapply wp_mono; [| |apply epochs_shape_spec]; wp_simpl.
      * by intros _ s' (_ & H).
      * by intros _ s' (_ & H).
    + exists [], [], []. simpl. rewrite app_nil_r.
      split; [apply prefix_nil|]. by repeat split.
  - exists [], [], []. simpl. rewrite app_nil_r.
    split; [apply prefix_nil|]. by repeat split.
Qed.

Lemma saves_training B :
  Forall (λ ev, is_training_step ev = true) B → saves B = [].
Proof.
  induction 1 as [|ev B Hev _ IH]; [done|]. by destruct ev.
Qed.

Lemma saves_none t : Forall (λ ev, is_save ev = false) t → saves t = [].
Proof.
  induction 1 as [|ev t Hev _ IH]; [done|]. unfold saves in *; simpl.
  by rewrite Hev.
Qed.

Lemma saves_epochs_shape flag eps t :
  epochs_shape flag eps t →
  saves t = if flag then flat_map claimed_checkpoints eps else [].
Proof.
  revert t. induction eps as [|e eps IH]; intros t; simpl.
  - intros ->. by destruct flag.
  - intros (B & t' & HB & -> & Hsh).
    change (EPrint (epoch_banner e) :: B ++ ?x)
      with ([EPrint (epoch_banner e)] ++ B ++ x).
    rewrite !saves_app, (saves_training B HB), (IH t' Hsh).
    by destruct flag.
Qed.

(** C7.  Every run records, after the start-up calls (which write no file),
    one segment per epoch completed so far: the banner of the epoch, then
    per-batch steps only, then - as the last events of the epoch, before
    the banner of the next - exactly the three files
    [models/model_NN.pt], [models/crit_NN.pt], [models/optim_NN.pt] when
    [save_model] is set and no file at all when it is not, NN being the
    1-based epoch number in decimal, on two digits up to 99.  Whatever
    follows the completed epochs (an epoch that raised) writes no file, and
    a run that returns has completed every epoch of [range(num_epochs)].
    So the files written during a run are those of the completed epochs
    when the flag is set, and none otherwise. *)
Theorem C7_checkpoints E cfg :
  ∃ t0 done t rest,
    trace (run E cfg).2 = t0 ++ t ++ rest ∧
    Forall (λ ev, is_save ev = false) t0 ∧
    done `prefix_of` epochs_of cfg ∧
    epochs_shape (save_flag cfg) done t ∧
    Forall (λ ev, is_save ev = false) rest ∧
    ((run E cfg).1 = inr tt → done = epochs_of cfg ∧ rest = []) ∧
    saves (trace (run E cfg).2)
    = (if save_flag cfg then flat_map claimed_checkpoints done else []).
Proof.
  assert (∃ t0 done t rest,
    trace (run E cfg).2 = t0 ++ t ++ rest ∧
    Forall (λ ev, is_save ev = false) t0 ∧
    done `prefix_of` epochs_of cfg ∧
    epochs_shape (save_flag cfg) done t ∧
    Forall (λ ev, is_save ev = false) rest ∧
    ((run E cfg).1 = inr tt → done = epochs_of cfg ∧ rest = []))
    as (t0 & done & t & rest & Ht & H0 & Hp & Hsh & Hrest & Hok).
  { pose proof (startup_spec E cfg) as Hs. unfold wp in Hs.
    rewrite run_unfold.
    destruct (startup E (init cfg)) as [[e|dl] s1]; simpl.
    - destruct Hs as [(_ & _ & Hf & _) _].
      exists (trace s1), [], [], []. rewrite !app_nil_r.
      split; [done|]. split.
      { eapply startup_trace_filter; [|exact Hf]. by intros []. }
      split; [apply prefix_nil|]. by repeat split.
    - destruct Hs as [(_ & _ & Hf & Ha) _].
      pose proof (training_loop_shape E dl s1) as Hl. unfold wp in Hl.
      rewrite (args_after_save_flag _ _ _ Ha), (args_after_epochs _ _ _ Ha)
        in Hl.
      assert (Forall (λ ev, is_save ev = false) (trace s1)) as H0.
      { eapply startup_trace_filter; [|exact Hf]. by intros []. }
      destruct (training_loop E dl s1) as [[e|[]] s2]; simpl.
      + destruct Hl as (done & t & rest & Hp & Ht & Hsh & Hrest).
        exists (trace s1), done, t, rest. by repeat split.
      + destruct Hl as (t & Ht & Hsh).
        exists (trace s1), (epochs_of cfg), t, []. rewrite app_nil_r.
        by repeat split. }
  exists t0, done, t, rest. repeat split; try done; try apply Hok; try done.
  rewrite Ht, !saves_app, (saves_none t0 H0), (saves_none rest Hrest),
    app_nil_r.
  by apply saves_epochs_shape.
Qed.

Example claimed_names :
  claimed_checkpoints 0 =
    [ESave Model "models/model_01.pt"; ESave Criterion "models/crit_01.pt";
     ESave Optimizer "models/optim_01.pt"] ∧
  claimed_checkpoints 11 =
    [ESave Model "models/model_12.pt"; ESave Criterion "models/crit_12.pt";
     ESave Optimizer "models/optim_12.pt"] ∧
  claimed_checkpoints 122 =
    [ESave Model "models/model_123.pt"; ESave Criterion "models/crit_123.pt";
     ESave Optimizer "models/optim_123.pt"].
Proof. repeat split; reflexivity. Qed.

Lemma C7_witness :
  saves (trace (run env_speakers cfg_three_epochs).2) =
    [ESave Model "models/model_01.pt"; ESave Criterion "models/crit_01.pt";
     ESave Optimizer "models/optim_01.pt";
     ESave Model "models/model_02.pt"; ESave Criterion "models/crit_02.pt";
     ESave Optimizer "models/optim_02.pt";
     ESave Model "models/model_03.pt"; ESave Criterion "models/crit_03.pt";
     ESave Optimizer "models/optim_03.pt"] ∧
  saves (trace (run env_speakers
                  (<["save_model" := VBool false]> cfg_three_epochs)).2) = [].
Proof.
  split.
  - destruct (C7_checkpoints env_speakers cfg_three_epochs)
      as (t0 & done & t & rest & _ & _ & _ & _ & _ & Hd & Hs).
    rewrite Hs. destruct Hd as [-> _]; [vm_compute; reflexivity|].
    vm_compute. reflexivity.
  - destruct (C7_checkpoints env_speakers
                (<["save_model" := VBool false]> cfg_three_epochs))
      as (t0 & done & t & rest & _ & _ & _ & _ & _ & _ & Hs).
    rewrite Hs. reflexivity.
Defined.

(** ** The range of the logged accuracy *)



